(** * Misskey to Mastodon crossposter

    A shallow embedding of [src/syncbot/__init__.py] and the properties the
    specification states about it.

    Layout:
    - [PyData]: Python values as the script sees them (dict fields that may
      be missing or null, truthiness, the [in] operator on [str]);
    - [Notes]: the note and attachment dictionaries, [should_crosspost] and
      [misskey_to_mastodon_visibility];
    - [Engine]: the effectful part (ports, the attachment pipeline, the
      crosspost attempt, batch mode [crosspost], the generator
      [stream_notes] and the loop of [main]) over an explicit world;
    - [ConfigLoader]: [load_config];
    - [Clients]: the addresses and headers the two clients compute;
    - [Program]: [main] from its first line, [load_config] included;
    - the properties C1 to C10 of the specification: first the two pure
      decisions (C2, C7), then a small logic of postconditions for the
      procedures of [Engine] and what each procedure guarantees, then
      C1, C3 to C6, C8 and C10 with the concrete runs they are tried on,
      and [load_config] (C9);
    - further properties of the code (X1 to X17): the attachment pipeline
      and the crosspost attempt event by event, batch mode when the fetch
      fails, the shape of a run of continuous mode and what follows from
      it, [main] as a whole, where [load_config] takes each setting from,
      and the addresses and headers of the clients.

    What the model takes for granted: notes, attachments and media
    responses have the keys the script indexes; strings are UTF-8 byte
    strings; writing the state file succeeds; a signal is handled during a
    blocking call (a network call, a sleep, the write of the state file);
    the [while] loop of [stream_notes] is cut after a number of iterations
    that every theorem leaves arbitrary. *)

From stdpp Require Import base strings gmap list.
From Stdlib Require Import ZArith Lia Ascii.
From Stdlib Require String.

Open Scope string_scope.
Open Scope list_scope.

(** ** Python values *)

Module PyData.

(** One key of a JSON object once it is a Python [dict]: the key may be
    missing, bound to [None] (JSON [null]), or bound to a value. The three
    cases differ under [d.get(k, default)] and [k in d]. *)
Inductive field (A : Type) : Type :=
| Absent
| Null
| Val (a : A).
Arguments Absent {A}.
Arguments Null {A}.
Arguments Val {A} a.

(** [d.get(k)]: [None] when the key is missing or null. *)
Definition get {A} (f : field A) : option A :=
  match f with
  | Val a => Some a
  | Absent | Null => None
  end.

(** [d.get(k, default)]: the default replaces a missing key only; a key
    bound to null still gives [None]. *)
Definition get_or {A} (f : field A) (default : A) : option A :=
  match f with
  | Absent => Some default
  | Null => None
  | Val a => Some a
  end.

(** [k in d]. *)
Definition has_key {A} (f : field A) : bool :=
  match f with
  | Absent => false
  | Null | Val _ => true
  end.

(** [x is not None]. *)
Definition is_not_None {A} (o : option A) : bool :=
  match o with
  | Some _ => true
  | None => false
  end.

(** Truth value testing ([bool(x)], as [if x:] and [and] use it). *)
Class Truthy (A : Type) := truthy : A -> bool.

#[global] Instance truthy_str : Truthy string :=
  fun s => match s with EmptyString => false | String _ _ => true end.

#[global] Instance truthy_list {A} : Truthy (list A) :=
  fun l => match l with [] => false | _ :: _ => true end.

#[global] Instance truthy_optional {A} `{Truthy A} : Truthy (option A) :=
  fun o => match o with None => false | Some a => truthy a end.

(** [needle in hay] on two [str]: substring search. Strings are UTF-8 byte
    strings here; the only needle the script uses is the ASCII "@", whose byte
    occurs in UTF-8 text exactly where the character does. *)
Fixpoint str_in (needle hay : string) : bool :=
  if String.prefix needle hay then true
  else match hay with
       | EmptyString => false
       | String _ hay' => str_in needle hay'
       end.

(** The characters of a string. *)
Definition chars (s : string) : list ascii := String.list_ascii_of_string s.

End PyData.
Export PyData.

(** ** Notes, attachments and the two pure decisions *)

Module Notes.

(** An entry of [note["files"]]. [file["url"]] is indexed directly by the
    pipeline, [comment] and [name] are read with [.get]. *)
Record file := {
  file_url : string;
  file_comment : field string;
  file_name : field string
}.

(** A note of the [users/notes] response, with the keys the script
    reads. [note["id"]] is indexed directly; every other key is read through
    [.get] or [in]. *)
Record note := {
  note_id : string;
  replyId : field string;
  renoteId : field string;
  mentions : field (list string);
  text : field string;
  visibility : field string;
  cw : field string;
  files : field (list file)
}.

(** [should_crosspost] (lines 174-192). The right operand of each [and] is
    only evaluated when the left one is truthy, which is when the value is a
    non-empty list, resp. a non-empty string. *)
Definition should_crosspost (n : note) : bool :=
  if is_not_None (get (replyId n)) then false
  else if is_not_None (get (renoteId n)) then false
  else if truthy (get (mentions n))
          && (0 <? Z.of_nat (length (default [] (get (mentions n)))))%Z
       then false
  else if truthy (get (text n))
          && str_in "@" (default "" (get_or (text n) ""))
       then false
  else true.

(** The dictionary literal of [misskey_to_mastodon_visibility]. *)
Definition visibility_map : gmap string string :=
  <["public" := "public"]>
    (<["followers" := "private"]>
       (<["specified" := "direct"]>
          (<["home" := "unlisted"]> ∅))).

(** [misskey_to_mastodon_visibility] (lines 194-202). The caller passes
    [note.get("visibility", "public")], which is [None] for a null
    visibility; [None] is no key of the dictionary, so [dict.get] answers
    with the default. *)
Definition misskey_to_mastodon_visibility (misskey_visibility : option string) : string :=
  match misskey_visibility with
  | Some v => default "public" (visibility_map !! v)
  | None => "public"
  end.

End Notes.
Export Notes.

(** ** The effectful part: ports, world, and the script's procedures *)

Module Engine.

(** Exceptions, as far as the script tells them apart: [except
    RequestException] in [stream_notes] against [except Exception]
    elsewhere. Every exception here is a subclass of [Exception]. *)
Inductive exn :=
| RequestException (msg : string)
| OtherException (kind msg : string).

(** [str(e)]. *)
Definition str_of_exn (e : exn) : string :=
  match e with
  | RequestException msg => msg
  | OtherException _ msg => msg
  end.

Definition is_RequestException (e : exn) : bool :=
  match e with
  | RequestException _ => true
  | OtherException _ _ => false
  end.

(** The tuple [download_attachment] returns. *)
Record attachment := {
  att_content : string;
  att_filename : string;
  att_mime_type : string
}.

(** The JSON body [get_user_notes] posts to [users/notes]
    ([includeReplies] and [includeMyRenotes] are constant [False]). *)
Record notes_request := {
  userId : string;
  limit : Z;
  sinceId : option string
}.

(** What [upload_media] sends. *)
Record media_request := {
  up_content : string;
  up_filename : string;
  up_mime_type : string;
  up_description : option string
}.

(** The JSON body [create_status] posts to [statuses]. *)
Record status_data := {
  status : option string;
  sd_visibility : string;
  sd_content_type : string;
  sd_media_ids : option (list string);
  sd_spoiler_text : option string
}.

(** The outside world. Each network call, sleep and state-file write is one
    blocking call; blocking calls are numbered in program order and the
    number is the only notion of time. A port answers a call from its
    number and its request, so the same request can fail now and succeed
    later. [signal t] says that SIGINT or SIGTERM arrived during blocking
    call [t] and the handler [main] installs ran. The HTTP plumbing of
    [_make_request] and the file-name computation of [download_attachment]
    sit behind the ports. *)
Record ports := {
  fetch_user_notes : nat -> notes_request -> exn + list note;
  download : nat -> string -> exn + attachment;
  upload : nat -> media_request -> exn + string;
  post_status : nat -> status_data -> exn + unit;
  signal : nat -> bool
}.

(** What a run does, in program order. [EvCheckRunning] is the evaluation
    of [while self._running]; [EvCreateStatus] records the arguments of the
    call [create_status(text, media_ids, visibility, spoiler_text)];
    [EvSignal] is one run of [signal_handler] (its print and
    [stop_streaming]). *)
Inductive event :=
| EvCheckRunning (b : bool)
| EvFetch (req : notes_request) (r : exn + list note)
| EvDownload (url : string) (r : exn + attachment)
| EvUpload (req : media_request) (r : exn + string)
| EvCreateStatus (text : option string) (media_ids : list string)
    (visibility : string) (spoiler_text : option string) (r : exn + unit)
| EvPrint (line : string)
| EvSleep (seconds : Z)
| EvSaveState (since_id : string)
| EvSignal.

(** The mutable state of a run. *)
Record world := {
  clock : nat;                      (* blocking calls made so far *)
  running : bool;                   (* [misskey_client._running] *)
  gen_since_id : option string;     (* the local [since_id] of [stream_notes] *)
  config_since_id : option string;  (* [config.since_id] *)
  state_file : option string        (* ["since_id"] in crosspost_state.json *)
}.

Definition set_clock (t : nat) (w : world) : world :=
  {| clock := t; running := running w; gen_since_id := gen_since_id w;
     config_since_id := config_since_id w; state_file := state_file w |}.
Definition set_running (b : bool) (w : world) : world :=
  {| clock := clock w; running := b; gen_since_id := gen_since_id w;
     config_since_id := config_since_id w; state_file := state_file w |}.
Definition set_gen_since_id (s : option string) (w : world) : world :=
  {| clock := clock w; running := running w; gen_since_id := s;
     config_since_id := config_since_id w; state_file := state_file w |}.
Definition set_config_since_id (s : option string) (w : world) : world :=
  {| clock := clock w; running := running w; gen_since_id := gen_since_id w;
     config_since_id := s; state_file := state_file w |}.
Definition set_state_file (s : option string) (w : world) : world :=
  {| clock := clock w; running := running w; gen_since_id := gen_since_id w;
     config_since_id := config_since_id w; state_file := s |}.

(** How a procedure ends: it returns, raises in its own frame, is abandoned
    because the consumer of a generator raised while the generator was
    suspended at [yield] ([Unwound]: no [except] of the generator sees it),
    or is cut by the fuel that bounds the unbounded [while] loop. *)
Inductive outcome (A : Type) : Type :=
| Ok (a : A)
| Raised (e : exn)
| Unwound (e : exn)
| OutOfFuel.
Arguments Ok {A} a.
Arguments Raised {A} e.
Arguments Unwound {A} e.
Arguments OutOfFuel {A}.

Record result (A : Type) : Type := {
  res : outcome A;
  final : world;
  emitted : list event
}.
Arguments res {A} r.
Arguments final {A} r.
Arguments emitted {A} r.

(** Procedures: state passing with exceptions and an event log. *)
Definition M (A : Type) : Type := world -> result A.

Definition ret {A} (a : A) : M A :=
  fun w => {| res := Ok a; final := w; emitted := [] |}.

Definition raise {A} (e : exn) : M A :=
  fun w => {| res := Raised e; final := w; emitted := [] |}.

Definition after {A} (evs : list event) (r : result A) : result A :=
  {| res := res r; final := final r; emitted := evs ++ emitted r |}.

Definition bind {A B} (m : M A) (k : A -> M B) : M B :=
  fun w =>
    let r := m w in
    match res r with
    | Ok a => after (emitted r) (k a (final r))
    | Raised e => {| res := Raised e; final := final r; emitted := emitted r |}
    | Unwound e => {| res := Unwound e; final := final r; emitted := emitted r |}
    | OutOfFuel => {| res := OutOfFuel; final := final r; emitted := emitted r |}
    end.

#[global] Instance M_ret : MRet M := @ret.
#[global] Instance M_bind : MBind M := fun A B k m => bind m k.

(** [try: m except Exception as e: handler e]. *)
Definition try_except {A} (m : M A) (handler : exn -> M A) : M A :=
  fun w =>
    let r := m w in
    match res r with
    | Raised e => after (emitted r) (handler e (final r))
    | _ => r
    end.

(** [try: m except RequestException as e: handler e]. *)
Definition try_except_RequestException {A} (m : M A) (handler : exn -> M A) : M A :=
  fun w =>
    let r := m w in
    match res r with
    | Raised e =>
        if is_RequestException e then after (emitted r) (handler e (final r))
        else r
    | _ => r
    end.

(** [yield n] inside a generator that a [for] statement drives: the loop
    body runs; if it raises, the generator is never resumed. *)
Definition yield (consumer : note -> M unit) (n : note) : M unit :=
  fun w =>
    let r := consumer n w in
    match res r with
    | Raised e => {| res := Unwound e; final := final r; emitted := emitted r |}
    | _ => r
    end.

(** The [for] statement that drives a generator: an exception of the loop
    body surfaces in the frame of the [for]. *)
Definition for_in_generator (g : M unit) : M unit :=
  fun w =>
    let r := g w in
    match res r with
    | Unwound e => {| res := Raised e; final := final r; emitted := emitted r |}
    | _ => r
    end.

Definition print (line : string) : M unit :=
  fun w => {| res := Ok tt; final := w; emitted := [EvPrint line] |}.

Definition get_since_id : M (option string) :=
  fun w => {| res := Ok (gen_since_id w); final := w; emitted := [] |}.

Definition put_since_id (s : option string) : M unit :=
  fun w => {| res := Ok tt; final := set_gen_since_id s w; emitted := [] |}.

Definition put_config_since_id (s : option string) : M unit :=
  fun w => {| res := Ok tt; final := set_config_since_id s w; emitted := [] |}.

(** [while self._running]. *)
Definition check_running : M bool :=
  fun w => {| res := Ok (running w); final := w; emitted := [EvCheckRunning (running w)] |}.

(** [stop_streaming]. *)
Definition stop_streaming : M unit :=
  fun w => {| res := Ok tt; final := set_running false w; emitted := [] |}.

Section WithPorts.

Variable env : ports.

(** [signal_handler] of [main] (lines 354-357): its print and
    [stop_streaming], recorded as one [EvSignal]. *)
Definition signal_handler (w : world) : world * list event :=
  (set_running false w, [EvSignal]).

(** The end of a blocking call: the clock advances, and the handler runs if
    a signal arrived during the call. *)
Definition unblock (w : world) : world * list event :=
  let w' := set_clock (S (clock w)) w in
  if signal env (clock w) then signal_handler w' else (w', []).

(** A blocking call to a port. *)
Definition call {A} (port : nat -> exn + A) (ev : exn + A -> event) : M A :=
  fun w =>
    let r := port (clock w) in
    {| res := match r with inl e => Raised e | inr a => Ok a end;
       final := fst (unblock w);
       emitted := ev r :: snd (unblock w) |}.

(** [time.sleep] on an [int]. The length is first converted to
    nanoseconds in a signed 64-bit integer: a length of more than
    9223372036 seconds, either way, raises [OverflowError] (the wording is
    that of CPython 3.9 to 3.12). A negative length that converts raises
    [ValueError]. *)
Definition sleep (seconds : Z) : M unit :=
  if ((seconds <? -9223372036) || (9223372036 <? seconds))%Z
  then raise (OtherException "OverflowError"
                "timestamp too large to convert to C _PyTime_t")
  else if (seconds <? 0)%Z
  then raise (OtherException "ValueError" "sleep length must be non-negative")
  else fun w => {| res := Ok tt; final := fst (unblock w);
                   emitted := EvSleep seconds :: snd (unblock w) |}.

(** [save_state] (lines 338-342); the write is taken to succeed. *)
Definition save_state (since_id : string) : M unit :=
  fun w => {| res := Ok tt; final := fst (unblock (set_state_file (Some since_id) w));
              emitted := EvSaveState since_id :: snd (unblock w) |}.

(** [MisskeyClient.get_user_notes] (lines 59-73): [sinceId] is sent only
    when [since_id] is truthy. *)
Definition get_user_notes (user_id : string) (limit : Z) (since_id : option string)
  : M (list note) :=
  let data := {| userId := user_id; limit := limit;
                 sinceId := if truthy since_id then since_id else None |} in
  call (fun t => fetch_user_notes env t data) (EvFetch data).

(** [MisskeyClient.download_attachment] (lines 75-88). *)
Definition download_attachment (file_url : string) : M attachment :=
  call (fun t => download env t file_url) (EvDownload file_url).

(** [MastodonClient.upload_media] (lines 135-151), followed by the
    [media["id"]] of the caller. *)
Definition upload_media (file_content filename mime_type : string)
    (description : option string) : M string :=
  let req := {| up_content := file_content; up_filename := filename;
                up_mime_type := mime_type;
                up_description := if truthy description then description else None |} in
  call (fun t => upload env t req) (EvUpload req).

(** The dictionary [create_status] builds (lines 159-169). *)
Definition status_payload (text : option string) (media_ids : list string)
    (visibility : string) (spoiler_text : option string) : status_data :=
  {| status := text;
     sd_visibility := visibility;
     sd_content_type := "text/markdown";
     sd_media_ids := if truthy media_ids then Some media_ids else None;
     sd_spoiler_text := if truthy spoiler_text then spoiler_text else None |}.

(** [MastodonClient.create_status] (lines 153-171). *)
Definition create_status (text : option string) (media_ids : list string)
    (visibility : string) (spoiler_text : option string) : M unit :=
  call (fun t => post_status env t (status_payload text media_ids visibility spoiler_text))
       (EvCreateStatus text media_ids visibility spoiler_text).

(** [str(x)] of the value [file.get('name', 'unknown')]. *)
Definition str_of_optional (o : option string) : string :=
  match o with
  | Some s => s
  | None => "None"
  end.

(** [process_misskey_files] (lines 204-232), as the loop over the remaining
    files with the list collected so far. The append precedes
    [time.sleep(1)], which raises nothing. *)
Fixpoint process_misskey_files_from (media_ids : list string) (files : list file)
  : M (list string) :=
  match files with
  | [] => ret media_ids
  | file :: rest =>
      media_ids' ←
        try_except
          (att ← download_attachment (file_url file);
           let description := get (file_comment file) in
           media_id ← upload_media (att_content att) (att_filename att)
                                    (att_mime_type att) description;
           sleep 1;;
           ret (media_ids ++ [media_id]))
          (fun e =>
             print ("Error processing file "
                      +:+ str_of_optional (get_or (file_name file) "unknown")
                      +:+ ": " +:+ str_of_exn e);;
             ret media_ids);
      process_misskey_files_from media_ids' rest
  end.

Definition process_misskey_files (files : list file) : M (list string) :=
  process_misskey_files_from [] files.

(** The [try] statement that both [crosspost] (lines 252-276) and [main]
    (lines 368-392) run for a note that passed [should_crosspost]. *)
Definition crosspost_note (crosspost_delay : Z) (n : note) : M unit :=
  try_except
    (media_ids ←
       (if has_key (files n) && truthy (get (files n))
        then process_misskey_files (default [] (get (files n)))
        else ret []);
     let text := get_or (text n) "" in
     let visibility := misskey_to_mastodon_visibility (get_or (visibility n) "public") in
     let spoiler_text := get (cw n) in
     create_status text media_ids visibility spoiler_text;;
     print ("Successfully crossposted note " +:+ note_id n);;
     sleep crosspost_delay)
    (fun e => print ("Error crossposting note " +:+ note_id n +:+ ": " +:+ str_of_exn e)).

(** [Config] (lines 21-37), typed as the dataclass annotates it. The engine
    reads the user id, the fetch limit, the starting cursor and the
    delay; instances and tokens only reach the clients behind the ports. *)
Record Config := {
  misskey_instance : string;
  misskey_token : string;
  misskey_user_id : string;
  mastodon_instance : string;
  mastodon_token : string;
  fetch_limit : Z;
  since_id : option string;
  crosspost_delay : Z
}.

(** The [for] loop of [crosspost] (lines 246-279). *)
Fixpoint crosspost_notes (config : Config) (newest_id : option string) (notes : list note)
  : M (option string) :=
  match notes with
  | [] => ret newest_id
  | n :: rest =>
      let newest_id := if is_not_None newest_id then newest_id else Some (note_id n) in
      (if should_crosspost n then crosspost_note (crosspost_delay config) n else ret tt);;
      crosspost_notes config newest_id rest
  end.

(** Batch mode: [crosspost] (lines 235-279). *)
Definition crosspost (config : Config) : M (option string) :=
  notes ← get_user_notes (misskey_user_id config) (fetch_limit config) (since_id config);
  crosspost_notes config None notes.

(** The [for note in notes] of [stream_notes] (lines 98-101). *)
Fixpoint stream_batch (consumer : note -> M unit) (notes : list note) : M unit :=
  match notes with
  | [] => ret tt
  | n :: rest =>
      since_id ← get_since_id;
      (if match since_id with
          | None => true
          | Some s => negb (String.eqb (note_id n) s)
          end
       then yield consumer n ;; put_since_id (Some (note_id n))
       else ret tt);;
      stream_batch consumer rest
  end.

(** The [while] loop of [stream_notes] (lines 94-106); [fuel] bounds the
    number of iterations. *)
Fixpoint stream_loop (fuel : nat) (user_id : string) (consumer : note -> M unit) : M unit :=
  match fuel with
  | O => fun w => {| res := OutOfFuel; final := w; emitted := [] |}
  | S fuel' =>
      r ← check_running;
      if (r : bool) then
        try_except_RequestException
          (since_id ← get_since_id;
           notes ← get_user_notes user_id 10 since_id;
           (if truthy notes then stream_batch consumer notes else ret tt);;
           sleep 5)
          (fun e =>
             print ("Error streaming notes: " +:+ str_of_exn e);;
             sleep 30);;
        stream_loop fuel' user_id consumer
      else ret tt
  end.

(** [MisskeyClient.stream_notes] (lines 90-106), driven by a loop body. *)
Definition stream_notes (fuel : nat) (user_id : string) (since_id : option string)
    (consumer : note -> M unit) : M unit :=
  put_since_id since_id;;
  stream_loop fuel user_id consumer.

(** The body of the [for] loop of [main] (lines 367-396). *)
Definition handle_note (config : Config) (n : note) : M unit :=
  (if should_crosspost n then crosspost_note (crosspost_delay config) n else ret tt);;
  put_config_since_id (Some (note_id n));;
  save_state (note_id n).

(** Continuous mode: the [for] statement of [main] (lines 364-396). *)
Definition main_loop (fuel : nat) (config : Config) : M unit :=
  since_id ← (fun w => {| res := Ok (config_since_id w); final := w; emitted := [] |});
  for_in_generator
    (stream_notes fuel (misskey_user_id config) since_id (handle_note config)).

(** [main] once [load_config] has returned [config] (lines 349-401). *)
Definition main (fuel : nat) (config : Config) : M unit :=
  fun w =>
    let body :=
      try_except
        (put_config_since_id (since_id config);;
         print "Starting to listen for new notes...";;
         main_loop fuel config)
        (fun e => print ("Error in main function: " +:+ str_of_exn e)) in
    let r := body w in
    {| res := res r; final := set_running false (final r); emitted := emitted r |}.

End WithPorts.

(** The world [main] starts in: [__init__] sets [_running]; the state file
    holds what [load_config] read from it. *)
Definition startup (config : Config) : world :=
  {| clock := 0; running := true; gen_since_id := None;
     config_since_id := since_id config; state_file := since_id config |}.

End Engine.
Export Engine.

(** ** Loading the configuration *)

Module ConfigLoader.

(** A JSON value as [json.load] returns it ([null] is [None]; numbers are
    integers here). *)
#[local] Unset Elimination Schemes.
Inductive json :=
| JNull
| JBool (b : bool)
| JNumber (z : Z)
| JString (s : string)
| JArray (items : list json)
| JObject (members : list (string * json)).
#[local] Set Elimination Schemes.

(** The [dict] [json.load] builds for an object: a repeated key keeps its
    last value. *)
Definition dict_of_members (members : list (string * json)) : gmap string json :=
  foldl (fun d kv => <[fst kv := snd kv]> d) ∅ members.

(** [d.get(key)]. *)
Definition dict_get (d : gmap string json) (key : string) : json :=
  default JNull (d !! key).

(** [x is None]. *)
Definition is_None (x : json) : bool :=
  match x with
  | JNull => true
  | _ => false
  end.

(** What [open(path)] followed by [json.load] comes to. *)
Inductive read_result :=
| FileNotFoundError (msg : string)
| JSONDecodeError (msg : string)
| ReadError (e : exn)
| Loaded (j : json).

(** [sep.join(parts)]. *)
Fixpoint join (sep : string) (parts : list string) : string :=
  match parts with
  | [] => ""
  | [part] => part
  | part :: rest => part +:+ sep +:+ join sep rest
  end.

Definition required_fields : list string :=
  ["misskey_instance"; "misskey_token"; "misskey_user_id";
   "mastodon_instance"; "mastodon_token"].

(** The fields of the dataclass [Config] (lines 21-37); the last three have
    defaults. *)
Definition Config_fields : list string :=
  required_fields ++ ["fetch_limit"; "since_id"; "crosspost_delay"].

Definition Config_defaults : gmap string json :=
  <["fetch_limit" := JNumber 20]>
    (<["since_id" := JNull]> (<["crosspost_delay" := JNumber 2]> ∅)).

(** The constructor of [Config] on keyword arguments (the call
    [Config] of [config_dict] unpacked): the generated [__init__] refuses a
    keyword that is no field and a missing field that has no default; it checks no types.
    The instance is given by the values of its fields. *)
Definition Config_init (kwargs : gmap string json) : exn + gmap string json :=
  match List.filter (fun key => bool_decide (key ∉ Config_fields))
          ((map_to_list kwargs).*1) with
  | key :: _ =>
      inl (OtherException "TypeError"
             ("Config.__init__() got an unexpected keyword argument '" +:+ key +:+ "'"))
  | [] =>
      match List.filter (fun key => bool_decide (kwargs !! key = None)) required_fields with
      | _ :: _ =>
          inl (OtherException "TypeError" "Config.__init__() missing required positional arguments")
      | [] => inr (kwargs ∪ Config_defaults)
      end
  end.

(** What [load_config] printed and how it ended. *)
Record loading := {
  printed : list string;
  loaded : exn + gmap string json
}.

Section Loader.

(** [int(s)] on a [str]: [None] stands for [ValueError]. *)
Variable py_int : string -> option Z.

(** [os.environ]. *)
Variable environ : gmap string string.

(** The files: what reading and decoding the file at a path gives. *)
Variable read_json : string -> read_result.

(** [os.environ.get(name)]. *)
Definition environ_get (name : string) : json :=
  match environ !! name with
  | Some value => JString value
  | None => JNull
  end.

(** [int(os.environ.get(name, fallback))]. *)
Definition int_setting (name fallback : string) : exn + Z :=
  let s := default fallback (environ !! name) in
  match py_int s with
  | Some z => inr z
  | None =>
      inl (OtherException "ValueError"
             ("invalid literal for int() with base 10: '" +:+ s +:+ "'"))
  end.

(** The body of the loop of lines 313-315. *)
Definition update_missing (key : string) (value : json) (config_dict : gmap string json)
  : gmap string json :=
  if is_None (dict_get config_dict key) then <[key := value]> config_dict else config_dict.

(** Lines 320-335: validation, the state file, and the constructor. *)
Definition validate_and_build (config_dict : gmap string json) (out : list string) : loading :=
  let missing_fields :=
    List.filter (fun field => is_None (dict_get config_dict field)) required_fields in
  if truthy missing_fields
  then {| printed := out;
          loaded := inl (OtherException "ValueError"
                           ("Missing required configuration: " +:+ join ", " missing_fields)) |}
  else
    match read_json "crosspost_state.json" with
    | Loaded (JObject members) =>
        {| printed := out;
           loaded := Config_init
                       (<["since_id" := dict_get (dict_of_members members) "since_id"]>
                          config_dict) |}
    | Loaded _ =>
        {| printed := out;
           loaded := inl (OtherException "AttributeError" "object has no attribute 'get'") |}
    | FileNotFoundError _ | JSONDecodeError _ =>
        {| printed := out; loaded := Config_init (<["since_id" := JNull]> config_dict) |}
    | ReadError e => {| printed := out; loaded := inl e |}
    end.

(** Lines 287-295: the settings the environment gives. *)
Definition environment_settings : exn + gmap string json :=
  match int_setting "FETCH_LIMIT" "20" with
  | inl e => inl e
  | inr fetch_limit =>
      match int_setting "CROSSPOST_DELAY" "2" with
      | inl e => inl e
      | inr crosspost_delay =>
          inr (<["misskey_instance" := environ_get "MISSKEY_INSTANCE"]>
                 (<["misskey_token" := environ_get "MISSKEY_TOKEN"]>
                    (<["misskey_user_id" := environ_get "MISSKEY_USER_ID"]>
                       (<["mastodon_instance" := environ_get "MASTODON_INSTANCE"]>
                          (<["mastodon_token" := environ_get "MASTODON_TOKEN"]>
                             (<["fetch_limit" := JNumber fetch_limit]>
                                (<["crosspost_delay" := JNumber crosspost_delay]> ∅)))))))
      end
  end.

(** [load_config] (lines 282-335). *)
Definition load_config : loading :=
  match environment_settings with
  | inl e => {| printed := []; loaded := inl e |}
  | inr config_dict =>
      if existsb (fun field => is_None (dict_get config_dict field)) required_fields
      then
        let config_file := default "config.json" (environ !! "CONFIG_FILE") in
        match read_json config_file with
        | Loaded (JObject members) =>
            validate_and_build
              (map_fold update_missing config_dict (dict_of_members members)) []
        | Loaded _ =>
            {| printed := [];
               loaded := inl (OtherException "AttributeError"
                                "object has no attribute 'items'") |}
        | FileNotFoundError msg | JSONDecodeError msg =>
            validate_and_build config_dict ["Error loading config file: " +:+ msg]
        | ReadError e => {| printed := []; loaded := inl e |}
        end
      else validate_and_build config_dict []
  end.

End Loader.

End ConfigLoader.

(** ** The two clients: addresses and headers *)

Module Clients.

(** [c in chars], for a character [c]. *)
Definition char_in (c : ascii) (chars : string) : bool :=
  existsb (Ascii.eqb c) (String.list_ascii_of_string chars).

(** [s.lstrip(chars)]: [s] without its leading characters that are in
    [chars]. *)
Fixpoint lstrip (chars s : string) : string :=
  match s with
  | EmptyString => EmptyString
  | String c rest => if char_in c chars then lstrip chars rest else s
  end.

(** [s.rstrip(chars)]: [s] without its trailing characters that are in
    [chars]. *)
Fixpoint rstrip (chars s : string) : string :=
  match s with
  | EmptyString => EmptyString
  | String c rest =>
      match rstrip chars rest with
      | EmptyString => if char_in c chars then EmptyString else String c EmptyString
      | kept => String c kept
      end
  end.

(** [s.startswith(prefix)]. *)
Definition startswith (prefix s : string) : bool := String.prefix prefix s.

Module MisskeyClient.

Record client := {
  instance : string;
  token : string;
  base_url : string
}.

(** [__init__] (lines 43-47); [_running] lives in the world of [Engine]. *)
Definition init (instance token : string) : client :=
  let instance := rstrip "/" instance in
  {| instance := instance; token := token; base_url := instance +:+ "/api" |}.

(** The address [_make_request] posts to (line 51). *)
Definition request_url (self : client) (endpoint : string) : string :=
  base_url self +:+ "/" +:+ endpoint.

(** The address [download_attachment] gets (lines 77-78). *)
Definition attachment_url (self : client) (file_url : string) : string :=
  if negb (startswith "http" file_url)
  then instance self +:+ "/" +:+ lstrip "/" file_url
  else file_url.

End MisskeyClient.

Module MastodonClient.

Record client := {
  instance : string;
  token : string;
  base_url : string;
  headers : gmap string string
}.

(** [__init__] (lines 116-120). *)
Definition init (instance token : string) : client :=
  let instance := rstrip "/" instance in
  {| instance := instance; token := token; base_url := instance +:+ "/api/v1";
     headers := {["Authorization" := "Bearer " +:+ token]} |}.

(** The address [_make_request] sends to (line 124). *)
Definition request_url (self : client) (endpoint : string) : string :=
  base_url self +:+ "/" +:+ endpoint.

(** The headers [_make_request] sends (lines 126-129), [kwargs_headers]
    being the [headers] keyword of the caller if there is one:
    [dict.update] lets the entries of the client replace the caller's. *)
Definition request_headers (self : client) (kwargs_headers : option (gmap string string))
  : gmap string string :=
  match kwargs_headers with
  | None => headers self
  | Some given => headers self ∪ given
  end.

End MastodonClient.

End Clients.

(** ** [main] from its first line *)

Module Program.

Import ConfigLoader.

(** A value of the loaded configuration at the type its field is annotated
    with. *)
Definition as_str (x : json) : option string :=
  match x with
  | JString s => Some s
  | _ => None
  end.

Definition as_int (x : json) : option Z :=
  match x with
  | JNumber z => Some z
  | _ => None
  end.

Definition as_optional_str (x : json) : option (option string) :=
  match x with
  | JNull => Some None
  | JString s => Some (Some s)
  | _ => None
  end.

(** The instance [load_config] returned, read at the types the dataclass
    annotates; [None] when a field holds a value of another type (the
    constructor checks none, and the engine is modelled at the annotated
    types only). *)
Definition typed_config (instance : gmap string json) : option Config :=
  mi ← as_str (dict_get instance "misskey_instance");
  mt ← as_str (dict_get instance "misskey_token");
  mu ← as_str (dict_get instance "misskey_user_id");
  ma ← as_str (dict_get instance "mastodon_instance");
  mk ← as_str (dict_get instance "mastodon_token");
  fl ← as_int (dict_get instance "fetch_limit");
  si ← as_optional_str (dict_get instance "since_id");
  cd ← as_int (dict_get instance "crosspost_delay");
  Some {| misskey_instance := mi; misskey_token := mt; misskey_user_id := mu;
          mastodon_instance := ma; mastodon_token := mk;
          fetch_limit := fl; since_id := si; crosspost_delay := cd |}.

(** The lines a procedure prints, one after the other. *)
Definition print_all (lines : list string) : M unit :=
  foldr (fun line rest => print line;; rest) (mret tt) lines.

(** What the [finally] clause of [main] raises when it reads
    [misskey_client] and no client was ever assigned (the wording is that
    of CPython 3.11 and later). *)
Definition unbound_client : exn :=
  OtherException "UnboundLocalError"
    "cannot access local variable 'misskey_client' where it is not associated with a value".

(** What [save_state] writes (line 342), as [json.load] reads it back. *)
Definition state_document (since_id last_run : string) : json :=
  JObject [("since_id", JString since_id); ("last_run", JString last_run)].

Section WithEnvironment.

Variable env : ports.
Variable py_int : string -> option Z.
Variable environ : gmap string string.
Variable read_json : string -> read_result.

(** [main] (lines 345-401) from its first line. When [load_config] raises,
    the [except] clause prints the error and the [finally] clause then calls
    [misskey_client.stop_streaming()] on a local that was never assigned.
    When it returns, the constructor of the client sets [_running] and the
    rest is [main] above. [None]: the loaded values are not of the
    annotated types. *)
Definition main_program (fuel : nat) : option (M unit) :=
  let l := load_config py_int environ read_json in
  match loaded l with
  | inl e =>
      Some (print_all (printed l);;
            print ("Error in main function: " +:+ str_of_exn e);;
            raise unbound_client)
  | inr instance =>
      config ← typed_config instance;
      Some (print_all (printed l);;
            ((fun w => main env fuel config (set_running true w)) : M unit))
  end.

End WithEnvironment.

End Program.

(** ** Facts about the Python layer *)

Lemma prefix_at (s : string) :
  String.prefix "@" s = true <-> exists s', s = String "@"%char s'.
Proof.
  destruct s as [|c s']; cbn [String.prefix].
  - split; [discriminate | intros [? ?]; discriminate].
  - destruct (ascii_dec "@"%char c) as [<-|Hne].
    + split; [eauto | intros _; now destruct s'].
    + split; [discriminate | intros [s'' [= Hc _]]; congruence].
Qed.

(** ["@" in s] is membership of the character. *)
Lemma str_in_at (s : string) :
  str_in "@" s = true <-> In "@"%char (chars s).
Proof.
  induction s as [|c s IH].
  - simpl. split; [discriminate | intros []].
  - cbn [str_in]. destruct (String.prefix "@" (String c s)) eqn:Hp.
    + apply prefix_at in Hp as [s' [= -> ->]]. split; [intros _; now left | reflexivity].
    + rewrite IH. cbn. split; [tauto|].
      intros [->|H]; [|exact H].
      assert (String.prefix "@" (String "@"%char s) = true) as Hq
        by (apply prefix_at; eauto).
      congruence.
Qed.

(** ** Eligibility *)

(** The four exclusion rules of the specification, on the values [.get]
    returns. *)
Definition has_reply_target (n : note) : Prop := get (replyId n) <> None.
Definition has_renote_target (n : note) : Prop := get (renoteId n) <> None.
Definition has_mentions (n : note) : Prop :=
  exists l, get (mentions n) = Some l /\ l <> [].
Definition text_has_at (n : note) : Prop :=
  exists s, get (text n) = Some s /\ In "@"%char (chars s).

Lemma mentions_rule (n : note) :
  truthy (get (mentions n))
  && (0 <? Z.of_nat (length (default [] (get (mentions n)))))%Z = true
  <-> has_mentions n.
Proof.
  unfold has_mentions. destruct (get (mentions n)) as [[|m l]|]; cbn.
  - split; [discriminate | intros (? & [= <-] & ?); congruence].
  - split; [intros _; eexists; split; [reflexivity | discriminate] | reflexivity].
  - split; [discriminate | intros (? & ? & ?); discriminate].
Qed.

Lemma text_rule (n : note) :
  truthy (get (text n)) && str_in "@" (default "" (get_or (text n) "")) = true
  <-> text_has_at n.
Proof.
  unfold text_has_at. destruct (text n) as [| |s]; cbn.
  - split; [discriminate | intros (? & ? & ?); discriminate].
  - split; [discriminate | intros (? & ? & ?); discriminate].
  - rewrite andb_true_iff, str_in_at. split.
    + intros [_ H]. eauto.
    + intros (s' & [= <-] & H). split; [|exact H].
      destruct s; [destruct H | reflexivity].
Qed.

(** C2. [should_crosspost] answers [False] exactly for the notes that have
    a reply target, a renote target, a non-empty mention list, or a text
    that is present and contains the character '@'; it answers [True] for
    every note that breaks none of the four rules. *)
Theorem should_crosspost_sound_complete (n : note) :
  (should_crosspost n = false <->
     has_reply_target n \/ has_renote_target n \/ has_mentions n \/ text_has_at n)
  /\ (should_crosspost n = true <->
     ~ has_reply_target n /\ ~ has_renote_target n /\ ~ has_mentions n /\ ~ text_has_at n).
Proof.
  assert (should_crosspost n = false <->
          has_reply_target n \/ has_renote_target n \/ has_mentions n \/ text_has_at n)
    as Hfalse.
  { pose proof (mentions_rule n) as Hm. pose proof (text_rule n) as Ht.
    unfold should_crosspost, has_reply_target, has_renote_target in *.
    destruct (get (replyId n)) as [r|]; cbn [is_not_None].
    { split; [intros _; left; discriminate | reflexivity]. }
    destruct (get (renoteId n)) as [q|]; cbn [is_not_None].
    { split; [intros _; right; left; discriminate | reflexivity]. }
    destruct (truthy (get (mentions n)) && _) eqn:Em.
    { split; [intros _; right; right; left; now apply Hm | reflexivity]. }
    destruct (truthy (get (text n)) && _) eqn:Et.
    { split; [intros _; right; right; right; now apply Ht | reflexivity]. }
    split; [discriminate|].
    intros [H|[H|[H|H]]]; try congruence.
    - apply Hm in H. discriminate.
    - apply Ht in H. discriminate. }
  split; [exact Hfalse|].
  destruct (should_crosspost n).
  - split; [|reflexivity]. intros _.
    assert (~ (has_reply_target n \/ has_renote_target n \/ has_mentions n \/ text_has_at n))
      by (intros H; apply Hfalse in H; discriminate).
    tauto.
  - split; [discriminate|]. intros (H1 & H2 & H3 & H4).
    destruct (proj1 Hfalse eq_refl) as [H|[H|[H|H]]]; contradiction.
Qed.

(** ** Visibility *)

Lemma visibility_map_other (v : string) :
  v <> "public" -> v <> "followers" -> v <> "specified" -> v <> "home" ->
  visibility_map !! v = None.
Proof.
  intros H1 H2 H3 H4. unfold visibility_map.
  rewrite !lookup_insert_ne by congruence. apply lookup_empty.
Qed.

(** C7. [misskey_to_mastodon_visibility] is a function defined on every
    input, maps the four known Misskey visibilities as the table says, and
    answers "public" on every other input, [None] included. *)
Theorem misskey_to_mastodon_visibility_table :
  misskey_to_mastodon_visibility (Some "public") = "public"
  /\ misskey_to_mastodon_visibility (Some "followers") = "private"
  /\ misskey_to_mastodon_visibility (Some "specified") = "direct"
  /\ misskey_to_mastodon_visibility (Some "home") = "unlisted"
  /\ (forall v : option string,
        v <> Some "public" -> v <> Some "followers" ->
        v <> Some "specified" -> v <> Some "home" ->
        misskey_to_mastodon_visibility v = "public")
  /\ (forall v : option string,
        In (misskey_to_mastodon_visibility v) ["public"; "private"; "direct"; "unlisted"]).
Proof.
  assert (forall v : option string,
             v <> Some "public" -> v <> Some "followers" ->
             v <> Some "specified" -> v <> Some "home" ->
             misskey_to_mastodon_visibility v = "public") as Hother.
  { intros [v|] H1 H2 H3 H4; [|reflexivity]. cbn.
    rewrite visibility_map_other; [reflexivity | congruence..]. }
  repeat split; try reflexivity; try exact Hother.
  intros v.
  destruct (decide (v = Some "public")) as [->|H1]; [cbn; tauto|].
  destruct (decide (v = Some "followers")) as [->|H2]; [cbn; tauto|].
  destruct (decide (v = Some "specified")) as [->|H3]; [cbn; tauto|].
  destruct (decide (v = Some "home")) as [->|H4]; [cbn; tauto|].
  rewrite Hother by assumption. cbn; tauto.
Qed.

(** ** Reasoning about procedures *)

(** A postcondition speaks of how the procedure ended, the world it left
    and the events it emitted. *)
Definition post (A : Type) : Type := outcome A -> world -> list event -> Prop.

Definition wp {A} (m : M A) (Q : post A) (w : world) : Prop :=
  Q (res (m w)) (final (m w)) (emitted (m w)).

(** What is owed after a procedure ended with [o], when [k] continues a
    normal return. *)
Definition then_wp {A B} (k : A -> M B) (Q : post B) : post A :=
  fun o w evs =>
    match o with
    | Ok a => wp (k a) (fun o' w' evs' => Q o' w' (evs ++ evs')) w
    | Raised e => Q (Raised e) w evs
    | Unwound e => Q (Unwound e) w evs
    | OutOfFuel => Q OutOfFuel w evs
    end.

(** The same for an [except] clause that catches the exceptions [catches]
    accepts. *)
Definition catch_wp {A} (catches : exn -> bool) (handler : exn -> M A) (Q : post A) : post A :=
  fun o w evs =>
    match o with
    | Raised e =>
        if catches e
        then wp (handler e) (fun o' w' evs' => Q o' w' (evs ++ evs')) w
        else Q (Raised e) w evs
    | _ => Q o w evs
    end.

Lemma wp_bind {A B} (m : M A) (k : A -> M B) (Q : post B) w :
  wp m (then_wp k Q) w -> wp (m ≫= k) Q w.
Proof.
  unfold wp, then_wp, mbind, M_bind, bind. destruct (res (m w)); auto.
Qed.

Lemma wp_ret {A} (a : A) (Q : post A) w : Q (Ok a) w [] -> wp (mret a) Q w.
Proof. auto. Qed.

Lemma wp_mono {A} (m : M A) (Q Q' : post A) w :
  wp m Q w -> (forall o w' evs, Q o w' evs -> Q' o w' evs) -> wp m Q' w.
Proof. unfold wp. auto. Qed.

Lemma wp_try_except {A} (m : M A) (handler : exn -> M A) (Q : post A) w :
  wp m (catch_wp (fun _ => true) handler Q) w -> wp (try_except m handler) Q w.
Proof.
  unfold wp, catch_wp, try_except. destruct (res (m w)) eqn:E; rewrite ?E; auto.
Qed.

Lemma wp_try_except_RequestException {A} (m : M A) (handler : exn -> M A) (Q : post A) w :
  wp m (catch_wp is_RequestException handler Q) w ->
  wp (try_except_RequestException m handler) Q w.
Proof.
  unfold wp, catch_wp, try_except_RequestException.
  destruct (res (m w)) eqn:E; rewrite ?E; auto.
  destruct (is_RequestException e); rewrite ?E; auto.
Qed.

Lemma wp_yield (consumer : note -> M unit) (n : note) (Q : post unit) w :
  wp (consumer n)
     (fun o w' evs => match o with Raised e => Q (Unwound e) w' evs | _ => Q o w' evs end) w ->
  wp (yield consumer n) Q w.
Proof. unfold wp, yield. destruct (res (consumer n w)) eqn:E; rewrite ?E; auto. Qed.

Lemma wp_for_in_generator (g : M unit) (Q : post unit) w :
  wp g (fun o w' evs => match o with Unwound e => Q (Raised e) w' evs | _ => Q o w' evs end) w ->
  wp (for_in_generator g) Q w.
Proof. unfold wp, for_in_generator. destruct (res (g w)) eqn:E; rewrite ?E; auto. Qed.

Lemma wp_print (line : string) (Q : post unit) w :
  Q (Ok tt) w [EvPrint line] -> wp (print line) Q w.
Proof. auto. Qed.

(** ** What a signal does, and what leaves the cursors alone *)

Definition is_signal (e : event) : bool :=
  match e with
  | EvSignal => true
  | _ => false
  end.

(** The handler ran during these events. *)
Definition signalled (evs : list event) : bool := existsb is_signal evs.

(** Events of the attachment pipeline and of the pauses and prints around
    a status: no fetch, no loop test, no status, no state-file write. *)
Definition is_quiet (e : event) : bool :=
  match e with
  | EvDownload _ _ | EvUpload _ _ | EvPrint _ | EvSleep _ | EvSignal => true
  | EvCheckRunning _ | EvFetch _ _ | EvCreateStatus _ _ _ _ _ | EvSaveState _ => false
  end.

(** Between [w] and [w'] only time passed: the cursors are untouched and
    [_running] fell exactly if the handler ran. *)
Definition passes (w w' : world) (evs : list event) : Prop :=
  gen_since_id w' = gen_since_id w
  /\ config_since_id w' = config_since_id w
  /\ state_file w' = state_file w
  /\ running w' = running w && negb (signalled evs).

Lemma signalled_app (evs1 evs2 : list event) :
  signalled (evs1 ++ evs2) = signalled evs1 || signalled evs2.
Proof. apply existsb_app. Qed.

Lemma passes_refl (w : world) : passes w w [].
Proof. unfold passes. cbn. rewrite andb_true_r. auto. Qed.

Lemma passes_trans (w w1 w2 : world) (evs1 evs2 : list event) :
  passes w w1 evs1 -> passes w1 w2 evs2 -> passes w w2 (evs1 ++ evs2).
Proof.
  unfold passes. intros (Hg & Hf & Hs & Hr) (Hg' & Hf' & Hs' & Hr').
  rewrite signalled_app, negb_orb, andb_assoc, <- Hr.
  repeat split; congruence.
Qed.

Lemma passes_print (w w' : world) (line : string) (evs : list event) :
  passes w w' evs -> passes w w' (EvPrint line :: evs).
Proof. exact id. Qed.

Section PortFacts.

Variable env : ports.

Lemma unblock_quiet (w : world) : Forall (fun e => is_quiet e = true) (snd (unblock env w)).
Proof. unfold unblock. destruct (signal env (clock w)); cbn; auto. Qed.

Lemma clock_unblock (w : world) : clock (fst (unblock env w)) = S (clock w).
Proof. unfold unblock. destruct (signal env (clock w)); reflexivity. Qed.

Lemma unblock_passes (w : world) : passes w (fst (unblock env w)) (snd (unblock env w)).
Proof.
  unfold passes, unblock.
  destruct (signal env (clock w)); cbn; rewrite ?andb_true_r, ?andb_false_r; auto.
Qed.

(** One blocking call, then the rest. *)
Lemma passes_blocking (w w' : world) (e : event) (evs : list event) :
  is_signal e = false ->
  passes (fst (unblock env w)) w' evs ->
  passes w w' (e :: snd (unblock env w) ++ evs).
Proof.
  intros He H. pose proof (passes_trans _ _ _ _ _ (unblock_passes w) H) as H'.
  unfold passes in *. cbn [signalled existsb] in *. now rewrite He.
Qed.

Lemma quiet_blocking (e : event) (w : world) (evs : list event) :
  is_quiet e = true ->
  Forall (fun e => is_quiet e = true) evs ->
  Forall (fun e => is_quiet e = true) (e :: snd (unblock env w) ++ evs).
Proof.
  intros He H. constructor; [exact He|]. apply Forall_app. split; [apply unblock_quiet | exact H].
Qed.

Lemma wp_call {A} (port : nat -> exn + A) (ev : exn + A -> event) (Q : post A) w :
  Q (match port (clock w) with inl e => Raised e | inr a => Ok a end)
    (fst (unblock env w)) (ev (port (clock w)) :: snd (unblock env w)) ->
  wp (call env port ev) Q w.
Proof. auto. Qed.

Lemma wp_sleep (seconds : Z) (Q : post unit) w :
  (0 <= seconds <= 9223372036)%Z ->
  Q (Ok tt) (fst (unblock env w)) (EvSleep seconds :: snd (unblock env w)) ->
  wp (sleep env seconds) Q w.
Proof.
  intros H HQ. unfold wp, sleep.
  destruct (Z.ltb_spec seconds (-9223372036)); [lia|].
  destruct (Z.ltb_spec 9223372036 seconds); [lia|].
  destruct (Z.ltb_spec seconds 0); [lia | exact HQ].
Qed.

Lemma wp_sleep_any (seconds : Z) (Q : post unit) w :
  ((seconds < -9223372036 \/ 9223372036 < seconds)%Z ->
   Q (Raised (OtherException "OverflowError"
                "timestamp too large to convert to C _PyTime_t")) w []) ->
  ((-9223372036 <= seconds < 0)%Z ->
   Q (Raised (OtherException "ValueError" "sleep length must be non-negative")) w []) ->
  ((0 <= seconds <= 9223372036)%Z ->
   Q (Ok tt) (fst (unblock env w)) (EvSleep seconds :: snd (unblock env w))) ->
  wp (sleep env seconds) Q w.
Proof.
  intros Hover Hneg Hpos. unfold wp, sleep.
  destruct (Z.ltb_spec seconds (-9223372036)); [apply Hover; lia|].
  destruct (Z.ltb_spec 9223372036 seconds); [apply Hover; lia|].
  destruct (Z.ltb_spec seconds 0); [apply Hneg | apply Hpos]; lia.
Qed.

End PortFacts.

(** ** The attachment pipeline *)

(** What the two legs of one attachment can come to. *)
Inductive leg_outcome :=
| DownloadFails (e : exn)
| UploadFails (att : attachment) (e : exn)
| Transferred (att : attachment) (media_id : string).

(** The destination ids of the attachments whose two legs succeeded, in the
    order of the attachments. *)
Definition transferred_ids (outs : list leg_outcome) : list string :=
  omap (fun o => match o with
                 | Transferred _ media_id => Some media_id
                 | DownloadFails _ | UploadFails _ _ => None
                 end) outs.

(** The media ids of the successful uploads among some events. *)
Definition uploaded_ids (evs : list event) : list string :=
  omap (fun e => match e with
                 | EvUpload _ (inr media_id) => Some media_id
                 | _ => None
                 end) evs.

(** The request [upload_media] sends for attachment [f] once its download
    gave [att]. *)
Definition upload_request (f : file) (att : attachment) : media_request :=
  {| up_content := att_content att; up_filename := att_filename att;
     up_mime_type := att_mime_type att;
     up_description := if truthy (get (file_comment f)) then get (file_comment f) else None |}.

Lemma uploaded_ids_app (evs1 evs2 : list event) :
  uploaded_ids (evs1 ++ evs2) = uploaded_ids evs1 ++ uploaded_ids evs2.
Proof. apply omap_app. Qed.

(** Event lists as one right-nested list. *)
Ltac evs_norm := repeat progress (cbn [app]; rewrite <- ?app_assoc, ?app_nil_r).

Ltac evs_norm_in H :=
  repeat progress (cbn [app] in H; rewrite <- ?app_assoc, ?app_nil_r in H).

Ltac split_post := split; [|split; [|split]].

Section Pipeline.

Variable env : ports.

(** From blocking call [t] on, the environment treats the attachments
    [files] as [outs] says, one outcome per attachment: a failed download
    takes one blocking call, a failed upload two, a transfer three (with
    its pause). *)
Fixpoint realises (t : nat) (files : list file) (outs : list leg_outcome) : Prop :=
  match files, outs with
  | [], [] => True
  | f :: files', DownloadFails e :: outs' =>
      download env t (file_url f) = inl e
      /\ realises (S t) files' outs'
  | f :: files', UploadFails att e :: outs' =>
      download env t (file_url f) = inr att
      /\ upload env (S t) (upload_request f att) = inl e
      /\ realises (S (S t)) files' outs'
  | f :: files', Transferred att media_id :: outs' =>
      download env t (file_url f) = inr att
      /\ upload env (S t) (upload_request f att) = inr media_id
      /\ realises (S (S (S t))) files' outs'
  | _, _ => False
  end.

(** Every environment treats every attachment list in one such way. *)
Lemma realises_total (files : list file) :
  forall t, exists outs, realises t files outs.
Proof.
  induction files as [|f files IH]; intros t.
  - exists []. exact I.
  - destruct (download env t (file_url f)) as [e|att] eqn:Hd.
    + destruct (IH (S t)) as [outs H]. exists (DownloadFails e :: outs). cbn. auto.
    + destruct (upload env (S t) (upload_request f att)) as [e|media_id] eqn:Hu.
      * destruct (IH (S (S t))) as [outs H]. exists (UploadFails att e :: outs). cbn. auto.
      * destruct (IH (S (S (S t)))) as [outs H].
        exists (Transferred att media_id :: outs). cbn. auto.
Qed.

Lemma realises_length (files : list file) :
  forall t outs, realises t files outs -> length outs = length files.
Proof.
  induction files as [|f files IH]; intros t [|[e|att e|att m] outs] H; cbn in *;
    try contradiction; try reflexivity; f_equal.
  - destruct H as (_ & H). eauto.
  - destruct H as (_ & _ & H). eauto.
  - destruct H as (_ & _ & H). eauto.
Qed.

Lemma realises_functional (files : list file) :
  forall t outs1 outs2,
    realises t files outs1 -> realises t files outs2 -> outs1 = outs2.
Proof.
  induction files as [|f files IH];
    intros t [|[e1|att1 e1|att1 m1] outs1] [|[e2|att2 e2|att2 m2] outs2] H1 H2;
    cbn in *; try contradiction; try reflexivity;
    repeat match goal with H : _ /\ _ |- _ => destruct H end;
    repeat match goal with
      | H1 : ?x = inr ?a, H2 : ?x = inr ?b |- _ =>
          assert (a = b) by congruence; subst b; clear H2
      | H1 : ?x = inl ?a, H2 : ?x = inl ?b |- _ =>
          assert (a = b) by congruence; subst b; clear H2
      end;
    try congruence; f_equal; eauto.
Qed.

Lemma uploaded_ids_unblock (w : world) : uploaded_ids (snd (unblock env w)) = [].
Proof. unfold unblock. destruct (signal env (clock w)); reflexivity. Qed.

Lemma uploaded_ids_blocking (e : event) (w : world) (evs : list event) :
  uploaded_ids (e :: snd (unblock env w) ++ evs) = uploaded_ids [e] ++ uploaded_ids evs.
Proof.
  change (e :: snd (unblock env w) ++ evs) with ([e] ++ snd (unblock env w) ++ evs).
  now rewrite !uploaded_ids_app, uploaded_ids_unblock.
Qed.

(** What [process_misskey_files] guarantees under [outs]: it returns, with
    the transferred ids after those collected before; its events are the
    pipeline's own and only time passed. *)
Definition pipeline_post (w : world) (acc : list string) (outs : list leg_outcome)
  : post (list string) :=
  fun o w' evs =>
    o = Ok (acc ++ transferred_ids outs)
    /\ uploaded_ids evs = transferred_ids outs
    /\ Forall (fun e => is_quiet e = true) evs
    /\ passes w w' evs.

Lemma wp_process_misskey_files_from (files : list file) :
  forall outs acc w,
    realises (clock w) files outs ->
    wp (process_misskey_files_from env acc files) (pipeline_post w acc outs) w.
Proof.
  induction files as [|f files IH]; intros outs acc w H.
  - destruct outs; [|destruct H]. apply wp_ret. unfold pipeline_post. cbn.
    rewrite app_nil_r. repeat split; auto. apply passes_refl.
  - cbn [process_misskey_files_from].
    apply wp_bind, wp_try_except, wp_bind. unfold download_attachment. apply wp_call.
    destruct outs as [|[e|att e|att mid] outs]; cbn [realises] in H; try destruct H as [Hd H].
    + destruct H.
    + rewrite Hd. cbn [then_wp catch_wp]. apply wp_bind, wp_print. cbn [then_wp].
      apply wp_ret. cbn [then_wp].
      eapply wp_mono.
      { apply (IH outs acc). now rewrite clock_unblock. }
      intros o w' evs (-> & Hu & Hq & Hp). unfold pipeline_post. evs_norm.
      split_post.
      * reflexivity.
      * rewrite uploaded_ids_blocking. exact Hu.
      * apply quiet_blocking; auto.
      * apply passes_blocking; [reflexivity|]. now apply passes_print.
    + destruct H as [Hu H]. rewrite Hd. cbn [then_wp catch_wp].
      apply wp_bind. unfold upload_media. apply wp_call.
      change {| up_content := att_content att; up_filename := _;
                up_mime_type := _; up_description := _ |}
        with (upload_request f att).
      rewrite clock_unblock, Hu. cbn [then_wp catch_wp].
      apply wp_bind, wp_print. cbn [then_wp]. apply wp_ret. cbn [then_wp].
      eapply wp_mono.
      { apply (IH outs acc). now rewrite !clock_unblock. }
      intros o w' evs (-> & Hu' & Hq & Hp). unfold pipeline_post. evs_norm.
      split_post.
      * reflexivity.
      * rewrite !uploaded_ids_blocking. exact Hu'.
      * repeat (apply quiet_blocking; [reflexivity|]). auto.
      * repeat (apply passes_blocking; [reflexivity|]). now apply passes_print.
    + destruct H as [Hu H]. rewrite Hd. cbn [then_wp catch_wp].
      apply wp_bind. unfold upload_media. apply wp_call.
      change {| up_content := att_content att; up_filename := _;
                up_mime_type := _; up_description := _ |}
        with (upload_request f att).
      rewrite clock_unblock, Hu. cbn [then_wp catch_wp].
      apply wp_bind, wp_sleep; [lia|]. cbn [then_wp]. apply wp_ret. cbn [catch_wp then_wp].
      eapply wp_mono.
      { apply (IH outs (acc ++ [mid])). now rewrite !clock_unblock. }
      intros o w' evs (-> & Hu' & Hq & Hp). unfold pipeline_post. evs_norm.
      split_post.
      * reflexivity.
      * rewrite !uploaded_ids_blocking. cbn. now rewrite Hu'.
      * repeat (apply quiet_blocking; [reflexivity|]). auto.
      * repeat (apply passes_blocking; [reflexivity|]). auto.
Qed.

End Pipeline.

(** ** One crosspost attempt *)

Section Orchestrator.

Variable env : ports.

(** The attachments the attempt hands to the pipeline: [note["files"]] when
    the key is there and truthy, nothing otherwise. *)
Definition attachments (n : note) : list file := default [] (get (files n)).

Lemma wp_collect_media (n : note) (outs : list leg_outcome) (w : world) :
  realises env (clock w) (attachments n) outs ->
  wp (if has_key (files n) && truthy (get (files n))
      then process_misskey_files env (default [] (get (files n)))
      else mret [])
     (pipeline_post w [] outs) w.
Proof.
  intros Hr. destruct (has_key (files n) && truthy (get (files n))) eqn:E.
  - now apply wp_process_misskey_files_from.
  - assert (attachments n = []) as Hnil.
    { unfold attachments. destruct (files n) as [| |[|f fs]]; cbn in *; congruence. }
    rewrite Hnil in Hr. destruct outs; [|destruct Hr].
    apply wp_ret. unfold pipeline_post. cbn. repeat split; auto. apply passes_refl.
Qed.

(** What one attempt guarantees, whatever the ports answer: it returns
    normally; only time passed; and it called [create_status] once, after
    the pipeline, with the text, the transferred media ids, the mapped
    visibility and the [cw] of the note. *)
Definition crosspost_post (w : world) (n : note) : post unit :=
  fun o w' evs =>
    o = Ok tt
    /\ passes w w' evs
    /\ exists outs r evs1 evs2,
        realises env (clock w) (attachments n) outs
        /\ evs = evs1
                 ++ EvCreateStatus (get_or (text n) "") (transferred_ids outs)
                      (misskey_to_mastodon_visibility (get_or (visibility n) "public"))
                      (get (cw n)) r
                 :: evs2
        /\ uploaded_ids evs1 = transferred_ids outs
        /\ Forall (fun e => is_quiet e = true) evs1
        /\ Forall (fun e => is_quiet e = true) evs2
        /\ exists t,
            r = post_status env t
                  (status_payload (get_or (text n) "") (transferred_ids outs)
                     (misskey_to_mastodon_visibility (get_or (visibility n) "public"))
                     (get (cw n))).

Lemma wp_crosspost_note (delay : Z) (n : note) (w : world) :
  wp (crosspost_note env delay n) (crosspost_post w n) w.
Proof.
  destruct (realises_total env (attachments n) (clock w)) as [outs Hr].
  unfold crosspost_note. apply wp_try_except, wp_bind.
  eapply wp_mono; [apply (wp_collect_media n outs w Hr)|].
  intros o w1 evs1 (-> & Hu & Hq & Hp). cbn [then_wp app].
  apply wp_bind. unfold create_status. apply wp_call.
  set (text := get_or (Notes.text n) "").
  set (vis := misskey_to_mastodon_visibility (get_or (visibility n) "public")).
  set (r := post_status env (clock w1) _).
  assert (forall w' tail,
             passes (fst (unblock env w1)) w' tail ->
             Forall (fun e => is_quiet e = true) tail ->
             crosspost_post w n (Ok tt) w'
               (evs1 ++ EvCreateStatus text (transferred_ids outs) vis (get (cw n)) r
                     :: snd (unblock env w1) ++ tail)) as Hend.
  { intros w' tail Hp' Hq'. split; [reflexivity|]. split.
    - eapply passes_trans; [exact Hp|]. now apply passes_blocking.
    - exists outs, r, evs1, (snd (unblock env w1) ++ tail).
      repeat split; auto.
      + apply Forall_app. split; [apply unblock_quiet | exact Hq'].
      + now exists (clock w1). }
  destruct r as [e|[]]; cbn [then_wp catch_wp].
  - apply wp_print. evs_norm. apply Hend; [apply passes_print, passes_refl | repeat constructor].
  - apply wp_bind, wp_print. cbn [then_wp]. apply wp_sleep_any; intros Hd; cbn [catch_wp].
    + apply wp_print. evs_norm. apply Hend; [do 2 apply passes_print; apply passes_refl|].
      repeat constructor.
    + apply wp_print. evs_norm. apply Hend; [do 2 apply passes_print; apply passes_refl|].
      repeat constructor.
    + evs_norm. apply Hend.
      * apply passes_print.
        rewrite <- (app_nil_r (snd (unblock env (fst (unblock env w1))))).
        apply passes_blocking; [reflexivity | apply passes_refl].
      * constructor; [reflexivity|].
        rewrite <- (app_nil_r (snd (unblock env (fst (unblock env w1))))).
        apply quiet_blocking; [reflexivity | constructor].
Qed.

End Orchestrator.

(** ** The generator's loop over one fetched batch *)

(** In the words of the specification: the notes of a batch that differ
    from the cursor current when they are reached, in feed order, the cursor
    moving to each note that is kept. *)
Fixpoint yielded (cursor : option string) (notes : list note) : list note :=
  match notes with
  | [] => []
  | n :: rest =>
      if decide (cursor = Some (note_id n))
      then yielded cursor rest
      else n :: yielded (Some (note_id n)) rest
  end.

(** In the words of the specification: hand each note downstream, in
    order, and set the cursor to its identifier when the consumer
    returns. *)
Fixpoint hand_over (consumer : note -> M unit) (notes : list note) : M unit :=
  match notes with
  | [] => mret tt
  | n :: rest =>
      yield consumer n;;
      put_since_id (Some (note_id n));;
      hand_over consumer rest
  end.

(** The cursor of the generator once it has gone through a batch. *)
Definition cursor_after (cursor : option string) (notes : list note) : option string :=
  match last notes with
  | Some n => Some (note_id n)
  | None => cursor
  end.

Lemma after_nil {A} (r : result A) : after [] r = r.
Proof. now destruct r. Qed.

Lemma after_after {A} (evs1 evs2 : list event) (r : result A) :
  after evs1 (after evs2 r) = after (evs1 ++ evs2) r.
Proof. unfold after. cbn. now rewrite app_assoc. Qed.

Lemma bind_assoc {A B C} (m : M A) (f : A -> M B) (g : B -> M C) (w : world) :
  ((m ≫= f) ≫= g) w = (m ≫= (fun a => f a ≫= g)) w.
Proof.
  unfold mbind, M_bind, bind. destruct (res (m w)) eqn:Em; cbn; rewrite ?Em; try reflexivity.
  destruct (res (f a (final (m w)))) eqn:Ef; cbn; rewrite ?Ef; try reflexivity.
  now rewrite after_after.
Qed.

Lemma bind_ext {A B} (m : M A) (k k' : A -> M B) (w : world) :
  (forall a w', k a w' = k' a w') -> (m ≫= k) w = (m ≫= k') w.
Proof. intros H. unfold mbind, M_bind, bind. destruct (res (m w)); now rewrite ?H. Qed.

Lemma cursor_differs (cursor : option string) (n : note) :
  match cursor with
  | None => true
  | Some s => negb (String.eqb (note_id n) s)
  end = bool_decide (cursor <> Some (note_id n)).
Proof.
  destruct cursor as [s|].
  - destruct (String.eqb_spec (note_id n) s) as [->|Hne]; cbn.
    + symmetry. apply bool_decide_eq_false. auto.
    + symmetry. apply bool_decide_eq_true. congruence.
  - symmetry. now apply bool_decide_eq_true.
Qed.

Lemma ret_bind {A B} (a : A) (k : A -> M B) (w : world) : (mret a ≫= k) w = k a w.
Proof. unfold mbind, M_bind, bind. cbn. apply after_nil. Qed.

Lemma get_since_id_bind {B} (k : option string -> M B) (w : world) :
  (get_since_id ≫= k) w = k (gen_since_id w) w.
Proof. unfold mbind, M_bind, bind. cbn. apply after_nil. Qed.

Lemma put_since_id_bind {B} (s : option string) (k : unit -> M B) (w : world) :
  (put_since_id s ≫= k) w = k tt (set_gen_since_id s w).
Proof. unfold mbind, M_bind, bind. cbn. apply after_nil. Qed.

Lemma stream_batch_hand_over (consumer : note -> M unit) (notes : list note) :
  forall w,
    stream_batch consumer notes w = hand_over consumer (yielded (gen_since_id w) notes) w.
Proof.
  induction notes as [|n rest IH]; intros w; [reflexivity|].
  cbn [stream_batch yielded].
  rewrite get_since_id_bind, cursor_differs.
  destruct (decide (gen_since_id w = Some (note_id n))) as [Heq|Hne].
  - rewrite bool_decide_eq_false_2 by auto. rewrite ret_bind. apply IH.
  - rewrite bool_decide_eq_true_2 by auto.
    cbn [hand_over]. rewrite bind_assoc. apply bind_ext. intros [] w1.
    rewrite !put_since_id_bind. apply IH.
Qed.



(** ** The body of the loop of [main] *)

(** What matters of a run for the order of crossposts and cursor writes:
    the calls of [create_status] (without the media ids, which depend on the
    ports) and the writes of the state file. *)
Inductive milestone :=
| Attempted (text : option string) (visibility : string) (spoiler_text : option string)
| Saved (since_id : string).

Definition milestone_of (e : event) : option milestone :=
  match e with
  | EvCreateStatus text _ visibility spoiler_text _ =>
      Some (Attempted text visibility spoiler_text)
  | EvSaveState since_id => Some (Saved since_id)
  | _ => None
  end.

Definition milestones (evs : list event) : list milestone := omap milestone_of evs.

(** The call of [create_status] a note leads to. *)
Definition attempt_of (n : note) : milestone :=
  Attempted (get_or (text n) "")
            (misskey_to_mastodon_visibility (get_or (visibility n) "public"))
            (get (cw n)).

(** The milestones of one observed note in continuous mode: its attempt if
    it is eligible, then the write of its identifier. *)
Definition observed (n : note) : list milestone :=
  (if should_crosspost n then [attempt_of n] else []) ++ [Saved (note_id n)].

(** Events of the polling loop itself. *)
Definition is_poll (e : event) : bool :=
  match e with
  | EvCheckRunning _ | EvFetch _ _ => true
  | _ => false
  end.

Definition poll_free (evs : list event) : Prop := Forall (fun e => is_poll e = false) evs.

Lemma milestones_app (evs1 evs2 : list event) :
  milestones (evs1 ++ evs2) = milestones evs1 ++ milestones evs2.
Proof. apply omap_app. Qed.

Lemma milestones_quiet (evs : list event) :
  Forall (fun e => is_quiet e = true) evs -> milestones evs = [].
Proof.
  induction 1 as [|e evs He _ IH]; [reflexivity|].
  destruct e; cbn in *; try discriminate; exact IH.
Qed.

Lemma poll_free_quiet (evs : list event) :
  Forall (fun e => is_quiet e = true) evs -> poll_free evs.
Proof.
  intros H. eapply Forall_impl; [exact H|].
  intros e He. destruct e; cbn in *; congruence.
Qed.

Lemma poll_free_app (evs1 evs2 : list event) :
  poll_free (evs1 ++ evs2) <-> poll_free evs1 /\ poll_free evs2.
Proof. apply Forall_app. Qed.

Section Observation.

Variable env : ports.
Variable config : Config.

Lemma save_state_spec (since_id : string) (w : world) :
  let r := save_state env since_id w in
  res r = Ok tt
  /\ gen_since_id (final r) = gen_since_id w
  /\ config_since_id (final r) = config_since_id w
  /\ state_file (final r) = Some since_id
  /\ running (final r) = running w && negb (signalled (emitted r))
  /\ emitted r = EvSaveState since_id :: snd (unblock env w).
Proof.
  unfold save_state, unblock. cbn.
  destruct (signal env (clock w)); cbn; rewrite ?andb_true_r, ?andb_false_r; auto 10.
Qed.

(** What the loop body guarantees for every note, eligible or not, and
    whatever the ports answer: it returns normally, having set
    [config.since_id] and the state file to the note's identifier as its
    last step; the generator's cursor is untouched; [_running] fell only
    through the handler. *)
Definition handle_post (w : world) (n : note) : post unit :=
  fun o w' evs =>
    o = Ok tt
    /\ gen_since_id w' = gen_since_id w
    /\ config_since_id w' = Some (note_id n)
    /\ state_file w' = Some (note_id n)
    /\ running w' = running w && negb (signalled evs)
    /\ milestones evs = observed n
    /\ poll_free evs.

Lemma crosspost_post_milestones (w : world) (n : note) o w' evs :
  crosspost_post env w n o w' evs ->
  o = Ok tt /\ passes w w' evs /\ milestones evs = [attempt_of n] /\ poll_free evs.
Proof.
  intros (-> & Hp & outs & r & evs1 & evs2 & _ & -> & _ & Hq1 & Hq2 & _).
  repeat split; try apply Hp.
  - rewrite milestones_app. cbn. now rewrite !milestones_quiet.
  - apply poll_free_app. split; [now apply poll_free_quiet|].
    constructor; [reflexivity | now apply poll_free_quiet].
Qed.

Lemma wp_handle_note (n : note) (w : world) :
  wp (handle_note env config n) (handle_post w n) w.
Proof.
  unfold handle_note. apply wp_bind.
  assert (wp (if should_crosspost n
              then crosspost_note env (crosspost_delay config) n
              else mret tt)
             (fun o w1 evs1 =>
                o = Ok tt /\ passes w w1 evs1
                /\ milestones evs1 = (if should_crosspost n then [attempt_of n] else [])
                /\ poll_free evs1) w) as Hfirst.
  { destruct (should_crosspost n).
    - eapply wp_mono; [apply wp_crosspost_note|]. apply crosspost_post_milestones.
    - apply wp_ret. split; [reflexivity|]. split; [apply passes_refl|].
      split; [reflexivity | constructor]. }
  eapply wp_mono; [exact Hfirst|].
  intros o w1 evs1 (-> & (Hg & Hc & Hs & Hr) & Hm & Hpf). cbn [then_wp].
  apply wp_bind. unfold wp at 1. cbn [put_config_since_id res final emitted then_wp].
  unfold wp.
  destruct (save_state_spec (note_id n) (set_config_since_id (Some (note_id n)) w1))
    as (Ho & Hg' & Hc' & Hs' & Hr' & He').
  evs_norm. unfold handle_post. rewrite Ho, Hg', Hc', Hs', Hr', He'.
  split; [reflexivity|]. split; [exact Hg|]. split; [reflexivity|]. split; [reflexivity|].
  split; [|split].
  - cbn [set_config_since_id running]. rewrite Hr, signalled_app.
    cbn [signalled existsb is_signal orb]. now rewrite negb_orb, andb_assoc.
  - rewrite milestones_app, Hm. unfold observed. f_equal. cbn.
    apply (f_equal (cons _)). apply milestones_quiet, unblock_quiet.
  - apply poll_free_app. split; [exact Hpf|].
    constructor; [reflexivity | apply poll_free_quiet, unblock_quiet].
Qed.

End Observation.

(** ** A batch in continuous mode and in batch mode *)

Lemma cursor_after_cons (cursor : option string) (n : note) (rest : list note) :
  cursor_after cursor (n :: rest) = cursor_after (Some (note_id n)) rest.
Proof. unfold cursor_after. rewrite last_cons. now destruct (last rest). Qed.

(** Kept or skipped, the last note of a batch leaves its identifier in the
    cursor. *)
Lemma cursor_after_yielded (notes : list note) :
  forall cursor, cursor_after cursor (yielded cursor notes) = cursor_after cursor notes.
Proof.
  induction notes as [|n rest IH]; intros cursor; [reflexivity|].
  cbn [yielded]. rewrite (cursor_after_cons cursor n rest).
  destruct (decide (cursor = Some (note_id n))) as [Heq|Hne].
  - rewrite IH. now rewrite Heq.
  - rewrite cursor_after_cons. apply IH.
Qed.


Section Batches.

Variable env : ports.
Variable config : Config.

(** What handing over the notes [ys] to the loop body of [main]
    guarantees. *)
Definition batch_post (w : world) (ys : list note) : post unit :=
  fun o w' evs =>
    o = Ok tt
    /\ gen_since_id w' = cursor_after (gen_since_id w) ys
    /\ config_since_id w' = cursor_after (config_since_id w) ys
    /\ state_file w' = cursor_after (state_file w) ys
    /\ running w' = running w && negb (signalled evs)
    /\ milestones evs = flat_map observed ys
    /\ poll_free evs.

Lemma wp_hand_over (ys : list note) :
  forall w, wp (hand_over (handle_note env config) ys) (batch_post w ys) w.
Proof.
  induction ys as [|n rest IH]; intros w.
  - apply wp_ret. unfold batch_post, cursor_after. cbn. rewrite andb_true_r.
    repeat split; auto. constructor.
  - cbn [hand_over]. apply wp_bind, wp_yield.
    eapply wp_mono; [apply wp_handle_note|].
    intros o w1 evs1 (-> & Hg & Hc & Hs & Hr & Hm & Hpf). cbn [then_wp].
    apply wp_bind. unfold wp at 1. cbn [put_since_id res final emitted then_wp].
    eapply wp_mono; [apply IH|].
    intros o w2 evs2 (-> & Hg' & Hc' & Hs' & Hr' & Hm' & Hpf'). evs_norm.
    unfold batch_post. rewrite !cursor_after_cons.
    cbn [set_gen_since_id gen_since_id config_since_id state_file running] in *.
    rewrite Hc in Hc'. rewrite Hs in Hs'.
    split; [reflexivity|]. split; [exact Hg'|]. split; [exact Hc'|]. split; [exact Hs'|].
    split; [|split].
    + rewrite Hr', Hr, signalled_app. now rewrite negb_orb, andb_assoc.
    + rewrite milestones_app, Hm, Hm'. reflexivity.
    + apply poll_free_app. auto.
Qed.

Lemma wp_stream_batch (notes : list note) (w : world) :
  wp (stream_batch (handle_note env config) notes)
     (batch_post w (yielded (gen_since_id w) notes)) w.
Proof. unfold wp. rewrite stream_batch_hand_over. apply wp_hand_over. Qed.

(** The identifier [crosspost] hands back after the notes [notes], when
    [newest_id] was its value before them. *)
Definition newest_of (newest_id : option string) (notes : list note) : option string :=
  if is_not_None newest_id then newest_id else note_id <$> head notes.

Definition crosspost_notes_post (w : world) (newest_id : option string) (notes : list note)
  : post (option string) :=
  fun o w' evs =>
    o = Ok (newest_of newest_id notes)
    /\ passes w w' evs
    /\ milestones evs = map attempt_of (List.filter should_crosspost notes)
    /\ poll_free evs.

Lemma wp_crosspost_notes (notes : list note) :
  forall newest_id w,
    wp (crosspost_notes env config newest_id notes)
       (crosspost_notes_post w newest_id notes) w.
Proof.
  induction notes as [|n rest IH]; intros newest_id w.
  - apply wp_ret. unfold crosspost_notes_post, newest_of.
    split; [now destruct newest_id|]. split; [apply passes_refl|].
    split; [reflexivity | constructor].
  - cbn [crosspost_notes]. apply wp_bind.
    assert (wp (if should_crosspost n
                then crosspost_note env (crosspost_delay config) n
                else mret tt)
               (fun o w1 evs1 =>
                  o = Ok tt /\ passes w w1 evs1
                  /\ milestones evs1 = (if should_crosspost n then [attempt_of n] else [])
                  /\ poll_free evs1) w) as Hfirst.
    { destruct (should_crosspost n).
      - eapply wp_mono; [apply wp_crosspost_note|]. apply crosspost_post_milestones.
      - apply wp_ret. split; [reflexivity|]. split; [apply passes_refl|].
        split; [reflexivity | constructor]. }
    eapply wp_mono; [exact Hfirst|].
    intros o w1 evs1 (-> & Hp & Hm & Hpf). cbn [then_wp].
    eapply wp_mono; [apply IH|].
    intros o w2 evs2 (-> & Hp' & Hm' & Hpf'). unfold crosspost_notes_post.
    split; [|split; [|split]].
    + f_equal. unfold newest_of. now destruct newest_id.
    + eapply passes_trans; eauto.
    + rewrite milestones_app, Hm, Hm'. cbn [List.filter].
      now destruct (should_crosspost n).
    + apply poll_free_app. auto.
Qed.

(** The request of batch mode. *)
Definition batch_request : notes_request :=
  {| userId := misskey_user_id config; limit := fetch_limit config;
     sinceId := if truthy (since_id config) then since_id config else None |}.

Lemma crosspost_fetched (notes : list note) (w : world) :
  fetch_user_notes env (clock w) batch_request = inr notes ->
  let r := crosspost env config w in
  res r = Ok (note_id <$> head notes)
  /\ passes w (final r) (emitted r)
  /\ milestones (emitted r) = map attempt_of (List.filter should_crosspost notes).
Proof.
  intros Hf. unfold crosspost. apply wp_bind. unfold get_user_notes. apply wp_call.
  fold batch_request. rewrite Hf. cbn [then_wp].
  eapply wp_mono; [apply wp_crosspost_notes|].
  intros o w2 evs2 (-> & Hp & Hm & _).
  split; [reflexivity|]. split.
  - now apply passes_blocking.
  - cbn [app]. change (EvFetch batch_request (inr notes) :: snd (unblock env w) ++ evs2)
      with ([EvFetch batch_request (inr notes)] ++ snd (unblock env w) ++ evs2).
    rewrite !milestones_app, Hm. cbn. now rewrite (milestones_quiet _ (unblock_quiet env w)).
Qed.

End Batches.

(** ** The polling loop *)

(** The request of one poll of [stream_notes]. *)
Definition poll_request (user_id : string) (cursor : option string) : notes_request :=
  {| userId := user_id; limit := 10; sinceId := if truthy cursor then cursor else None |}.

Lemma result_eta {A} (r : result A) :
  r = {| res := res r; final := final r; emitted := emitted r |}.
Proof. now destruct r. Qed.

(** A procedure's events start with those of its first step. *)
Lemma emitted_bind_prefix {A B} (m : M A) (k : A -> M B) (w : world) :
  exists rest, emitted ((m ≫= k) w) = emitted (m w) ++ rest.
Proof.
  unfold mbind, M_bind, bind. destruct (res (m w)); cbn; eauto using app_nil_r.
  all: exists []; now rewrite app_nil_r.
Qed.

Lemma emitted_try_prefix {A} (m : M A) (handler : exn -> M A) (w : world) :
  exists rest, emitted (try_except_RequestException m handler w) = emitted (m w) ++ rest.
Proof.
  unfold try_except_RequestException.
  destruct (res (m w)) as [a|e|e|]; try (exists []; now rewrite app_nil_r).
  destruct (is_RequestException e); [cbn; eauto | exists []; now rewrite app_nil_r].
Qed.

Section Polling.

Variable env : ports.

(** One iteration whose fetch raises a transport error: the error is
    printed, the loop sleeps 30 seconds and goes on from the top. *)
Lemma failed_fetch_iteration (fuel : nat) (user_id : string) (consumer : note -> M unit)
    (w : world) (msg : string) :
  running w = true ->
  fetch_user_notes env (clock w) (poll_request user_id (gen_since_id w))
    = inl (RequestException msg) ->
  stream_loop env (S fuel) user_id consumer w =
  after (EvCheckRunning true
           :: EvFetch (poll_request user_id (gen_since_id w)) (inl (RequestException msg))
           :: snd (unblock env w)
           ++ EvPrint ("Error streaming notes: " +:+ msg)
           :: EvSleep 30
           :: snd (unblock env (fst (unblock env w))))
        (stream_loop env fuel user_id consumer (fst (unblock env (fst (unblock env w))))).
Proof.
  intros Hr Hf. rewrite (result_eta (stream_loop env (S fuel) user_id consumer w)).
  change (wp (stream_loop env (S fuel) user_id consumer)
             (fun o w' evs =>
                {| res := o; final := w'; emitted := evs |} =
                after (EvCheckRunning true
                         :: EvFetch (poll_request user_id (gen_since_id w))
                              (inl (RequestException msg))
                         :: snd (unblock env w)
                         ++ EvPrint ("Error streaming notes: " +:+ msg)
                         :: EvSleep 30
                         :: snd (unblock env (fst (unblock env w))))
                      (stream_loop env fuel user_id consumer
                         (fst (unblock env (fst (unblock env w)))))) w).
  cbn [stream_loop]. apply wp_bind. unfold wp at 1.
  cbn [check_running res final emitted then_wp]. rewrite Hr.
  apply wp_bind, wp_try_except_RequestException, wp_bind. unfold wp at 1.
  cbn [get_since_id res final emitted then_wp].
  apply wp_bind. unfold get_user_notes. apply wp_call.
  fold (poll_request user_id (gen_since_id w)). rewrite Hf.
  cbn [then_wp catch_wp is_RequestException str_of_exn].
  apply wp_bind, wp_print. cbn [then_wp]. apply wp_sleep; [lia|]. cbn [then_wp].
  unfold wp, after. evs_norm. reflexivity.
Qed.

(** A running loop with fuel left begins an iteration by testing the flag
    and fetching since the current cursor. *)
Lemma running_loop_fetches (fuel : nat) (user_id : string) (consumer : note -> M unit)
    (w : world) :
  running w = true ->
  exists rest,
    emitted (stream_loop env (S fuel) user_id consumer w) =
    EvCheckRunning true
      :: EvFetch (poll_request user_id (gen_since_id w))
           (fetch_user_notes env (clock w) (poll_request user_id (gen_since_id w)))
      :: rest.
Proof.
  intros Hr. cbn [stream_loop].
  change (emitted ((check_running ≫= ?k) w))
    with (EvCheckRunning (running w) :: emitted (k (running w) w)).
  rewrite Hr.
  match goal with
  | |- context [emitted ((?m ≫= ?k) w)] =>
      destruct (emitted_bind_prefix m k w) as [rest1 ->]
  end.
  match goal with
  | |- context [emitted (try_except_RequestException ?m ?h w)] =>
      destruct (emitted_try_prefix m h w) as [rest2 ->]
  end.
  rewrite get_since_id_bind.
  match goal with
  | |- context [emitted ((?m ≫= ?k) w)] =>
      destruct (emitted_bind_prefix m k w) as [rest3 ->]
  end.
  cbn. eauto.
Qed.

(** A stopped loop returns at its next test. *)
Lemma stopped_loop_returns (fuel : nat) (user_id : string) (consumer : note -> M unit)
    (w : world) :
  running w = false ->
  stream_loop env (S fuel) user_id consumer w =
  {| res := Ok tt; final := w; emitted := [EvCheckRunning false] |}.
Proof.
  intros Hr. cbn [stream_loop].
  unfold mbind, M_bind, bind. cbn [check_running res final emitted after]. now rewrite Hr.
Qed.

End Polling.

(** ** The stop flag and the fetches *)

(** A run read from its start: [stopped] says that the handler has run,
    [armed] that the event just before was the loop test reading [True].
    A loop test reads [True] exactly while the handler has not run; a fetch
    needs the test just before it. *)
Fixpoint disciplined (stopped armed : bool) (evs : list event) : Prop :=
  match evs with
  | [] => True
  | EvCheckRunning b :: evs' => b = negb stopped /\ disciplined stopped b evs'
  | EvFetch _ _ :: evs' => armed = true /\ disciplined stopped false evs'
  | EvSignal :: evs' => disciplined true false evs'
  | _ :: evs' => disciplined stopped false evs'
  end.


(** Only time passed between [w] and [w'], as far as the loop can tell. *)
Definition lull (w w' : world) (evs : list event) : Prop :=
  running w' = running w && negb (signalled evs) /\ poll_free evs.

Lemma disciplined_armed (stopped armed : bool) (evs : list event) :
  disciplined stopped false evs -> disciplined stopped armed evs.
Proof. destruct evs as [|[] evs]; cbn; intuition congruence. Qed.

Lemma disciplined_after_lull (evs1 : list event) :
  poll_free evs1 ->
  forall stopped armed evs2,
    disciplined (stopped || signalled evs1) false evs2 ->
    disciplined stopped armed (evs1 ++ evs2).
Proof.
  induction 1 as [|e evs1 He _ IH]; intros stopped armed evs2 H.
  - cbn in *. rewrite orb_false_r in H. now apply disciplined_armed.
  - destruct e; cbn in He; try discriminate; cbn [app disciplined];
      try (apply IH; exact H).
    apply IH. cbn in H. now rewrite orb_true_r in H.
Qed.



Lemma lull_refl (w : world) : lull w w [].
Proof. split; [cbn; now rewrite andb_true_r | constructor]. Qed.

Lemma lull_trans (w w1 w2 : world) (evs1 evs2 : list event) :
  lull w w1 evs1 -> lull w1 w2 evs2 -> lull w w2 (evs1 ++ evs2).
Proof.
  intros [Hr Hp] [Hr' Hp']. split; [|now apply poll_free_app].
  rewrite Hr', Hr, signalled_app. now rewrite negb_orb, andb_assoc.
Qed.

Section StopFlag.

Variable env : ports.
Variable config : Config.

Lemma lull_unblock (w : world) : lull w (fst (unblock env w)) (snd (unblock env w)).
Proof.
  split; [apply unblock_passes | apply poll_free_quiet, unblock_quiet].
Qed.

Lemma lull_blocking (w w' : world) (e : event) (evs : list event) :
  is_signal e = false -> is_poll e = false ->
  lull (fst (unblock env w)) w' evs ->
  lull w w' (e :: snd (unblock env w) ++ evs).
Proof.
  intros Hs Hp H. pose proof (lull_trans _ _ _ _ _ (lull_unblock w) H) as [Hr Hpf].
  split; [|now constructor]. cbn [signalled existsb]. now rewrite Hs.
Qed.

Lemma lull_print (w w' : world) (line : string) (evs : list event) :
  lull w w' evs -> lull w w' (EvPrint line :: evs).
Proof. intros [Hr Hp]. split; [exact Hr | now constructor]. Qed.

(** An iteration that fetched, then whatever follows it. *)
Lemma disciplined_iteration (req : notes_request) (r : exn + list note)
    (w w' : world) (evs1 evs2 : list event) :
  running w = true ->
  lull w w' evs1 ->
  disciplined (negb (running w')) false evs2 ->
  disciplined (negb (running w)) false
    (EvCheckRunning true :: EvFetch req r :: evs1 ++ evs2).
Proof.
  intros Hw [Hr Hp] H. rewrite Hw. cbn. repeat split.
  apply disciplined_after_lull; [exact Hp|].
  rewrite Hr, Hw in H. cbn in *. now rewrite negb_involutive in H.
Qed.

(** How the loop of [stream_notes] can end when [main] drives it: it
    returns, runs out of fuel, or raises what a fetch raised that was no
    [RequestException]. *)
Definition loop_outcome (o : outcome unit) : Prop :=
  match o with
  | Ok _ | OutOfFuel => True
  | Unwound _ => False
  | Raised e =>
      is_RequestException e = false
      /\ exists t req, fetch_user_notes env t req = inl e
  end.

Lemma wp_stream_loop (fuel : nat) :
  forall w,
    wp (stream_loop env fuel (misskey_user_id config) (handle_note env config))
       (fun o _ evs => loop_outcome o /\ disciplined (negb (running w)) false evs) w.
Proof.
  induction fuel as [|fuel IH]; intros w; [split; exact I|].
  cbn [stream_loop]. apply wp_bind. unfold wp at 1.
  cbn [check_running res final emitted then_wp].
  destruct (running w) eqn:Hw; [|apply wp_ret; cbn; auto].
  set (req := poll_request (misskey_user_id config) (gen_since_id w)).
  assert (forall w' evs1,
             lull w w' evs1 ->
             wp (stream_loop env fuel (misskey_user_id config) (handle_note env config))
                (fun o _ evs' =>
                   loop_outcome o
                   /\ disciplined (negb true) false
                        (EvCheckRunning true
                           :: EvFetch req (fetch_user_notes env (clock w) req)
                           :: evs1 ++ evs'))
                w') as Hnext.
  { intros w' evs1 Hl. eapply wp_mono; [apply IH|]. intros o2 w2 evs2 [Ho H2].
    split; [exact Ho|].
    pose proof (disciplined_iteration req (fetch_user_notes env (clock w) req)
                  w w' evs1 evs2 Hw Hl H2) as H.
    now rewrite Hw in H. }
  apply wp_bind, wp_try_except_RequestException, wp_bind. unfold wp at 1.
  cbn [get_since_id res final emitted then_wp].
  apply wp_bind. unfold get_user_notes. apply wp_call.
  fold (poll_request (misskey_user_id config) (gen_since_id w)). fold req.
  destruct (fetch_user_notes env (clock w) req) as [e|notes] eqn:Hf;
    cbn [then_wp catch_wp].
  - destruct (is_RequestException e) eqn:He.
    + apply wp_bind, wp_print. cbn [then_wp]. apply wp_sleep; [lia|]. evs_norm.
      cbn [then_wp]. eapply wp_mono.
      { apply (Hnext _ (snd (unblock env w)
                          ++ EvPrint ("Error streaming notes: " +:+ str_of_exn e)
                          :: EvSleep 30 :: snd (unblock env (fst (unblock env w))))).
        eapply lull_trans; [apply lull_unblock|].
        apply lull_print. rewrite <- (app_nil_r (snd (unblock env (fst (unblock env w))))).
        apply lull_blocking; [reflexivity | reflexivity | apply lull_refl]. }
      intros o w' evs H. evs_norm. evs_norm_in H. exact H.
    + evs_norm. split; [split; eauto|].
      pose proof (disciplined_iteration req (inl e) w _ _ [] Hw (lull_unblock w) I) as H.
      rewrite Hw, app_nil_r in H. exact H.
  - apply wp_bind.
    assert (wp (if truthy notes
                then stream_batch (handle_note env config) notes
                else mret tt)
               (fun o w2 evs2 => o = Ok tt /\ lull (fst (unblock env w)) w2 evs2)
               (fst (unblock env w))) as Hbatch.
    { destruct (truthy notes).
      - eapply wp_mono; [apply wp_stream_batch|].
        intros o w2 evs2 (-> & _ & _ & _ & Hr & _ & Hp). repeat split; auto.
      - apply wp_ret. split; [reflexivity | apply lull_refl]. }
    eapply wp_mono; [exact Hbatch|].
    intros o w2 evs2 (-> & Hl). cbn [then_wp].
    apply wp_sleep; [lia|]. cbn [catch_wp then_wp]. eapply wp_mono.
    { apply (Hnext _ (snd (unblock env w) ++ evs2 ++ EvSleep 5 :: snd (unblock env w2))).
      eapply lull_trans; [apply lull_unblock|].
      eapply lull_trans; [exact Hl|].
      rewrite <- (app_nil_r (snd (unblock env w2))).
      apply lull_blocking; [reflexivity | reflexivity | apply lull_refl]. }
    intros o w' evs H. evs_norm. evs_norm_in H. exact H.
Qed.

Lemma wp_main_loop (fuel : nat) (w : world) :
  wp (main_loop env fuel config)
     (fun o _ evs => loop_outcome o /\ disciplined (negb (running w)) false evs) w.
Proof.
  unfold main_loop. apply wp_bind. unfold wp at 1. cbn [res final emitted then_wp].
  apply wp_for_in_generator. unfold stream_notes. apply wp_bind. unfold wp at 1.
  cbn [put_since_id res final emitted then_wp].
  eapply wp_mono; [apply wp_stream_loop|].
  intros o w' evs [Ho H]. cbn [app]. destruct o; cbn in Ho |- *; auto; contradiction.
Qed.

End StopFlag.

(** ** Concrete runs *)

Module Scenario.

Definition photo (url : string) : file :=
  {| file_url := url; file_comment := Absent; file_name := Val url |}.

(** A plain note: no reply, no renote, no mentions, home visibility. *)
Definition plain (id body : string) (fs : field (list file)) : note :=
  {| note_id := id; replyId := Null; renoteId := Null; mentions := Val [];
     text := Val body; visibility := Val "home"; cw := Null; files := fs |}.

Definition first_note : note := plain "1" "hello world" Absent.
Definition second_note : note := plain "2" "second post" Absent.
Definition mention_note : note := plain "3" "hi @bob" Absent.
Definition warned_note : note :=
  {| note_id := "4"; replyId := Null; renoteId := Null; mentions := Val [];
     text := Val "spoilers inside"; visibility := Val "followers"; cw := Val "film";
     files := Absent |}.
Definition album : note := plain "5" "three photos" (Val [photo "a"; photo "b"; photo "c"]).

Definition downloaded (url : string) : attachment :=
  {| att_content := url; att_filename := url; att_mime_type := "image/png" |}.

(** Every poll returns [first_note] and [second_note], in this order; the
    download of "b" fails; everything else succeeds; no signal. *)
Definition steady : ports :=
  {| fetch_user_notes := fun _ _ => inr [first_note; second_note];
     download := fun _ url =>
       if String.eqb url "b" then inl (RequestException "404") else inr (downloaded url);
     upload := fun _ req => inr ("m_" +:+ up_filename req);
     post_status := fun _ _ => inr tt;
     signal := fun _ => false |}.

(** As [steady], but the first poll fails with a transport error. *)
Definition flaky : ports :=
  {| fetch_user_notes := fun t req =>
       if Nat.eqb t 0 then inl (RequestException "timeout")
       else fetch_user_notes steady t req;
     download := download steady;
     upload := upload steady;
     post_status := post_status steady;
     signal := signal steady |}.

(** As [steady], but a signal arrives during the second blocking call: the
    [create_status] of [first_note]. *)
Definition interrupted : ports :=
  {| fetch_user_notes := fetch_user_notes steady;
     download := download steady;
     upload := upload steady;
     post_status := post_status steady;
     signal := fun t => Nat.eqb t 1 |}.

Definition settings : Config :=
  {| misskey_instance := "https://misskey.example"; misskey_token := "t1";
     misskey_user_id := "u";
     mastodon_instance := "https://mastodon.example"; mastodon_token := "t2";
     fetch_limit := 20; since_id := None; crosspost_delay := 2 |}.

End Scenario.

(** The end-to-end scenarios of the specification. *)

(** A plain post with home visibility: eligible, created as "unlisted"
    with its text, no media ids and no spoiler text; then the cursor is
    written. *)
Example plain_post_is_crossposted :
  should_crosspost Scenario.first_note = true
  /\ emitted (handle_note Scenario.steady Scenario.settings Scenario.first_note
                (startup Scenario.settings))
     = [EvCreateStatus (Some "hello world") [] "unlisted" None (inr tt);
        EvPrint "Successfully crossposted note 1";
        EvSleep 2;
        EvSaveState "1"]
  /\ status_payload (Some "hello world") [] "unlisted" None
     = {| status := Some "hello world"; sd_visibility := "unlisted";
          sd_content_type := "text/markdown"; sd_media_ids := None;
          sd_spoiler_text := None |}.
Proof. vm_compute. auto. Qed.

(** "hi @bob" is excluded by the '@' rule although its mention list is
    empty; its identifier is written all the same. *)
Example mention_is_excluded :
  should_crosspost Scenario.mention_note = false
  /\ emitted (handle_note Scenario.steady Scenario.settings Scenario.mention_note
                (startup Scenario.settings))
     = [EvSaveState "3"].
Proof. vm_compute. auto. Qed.

(** Three attachments, the second download fails: the post is created with
    the ids of the first and the third. *)
Example album_is_crossposted :
  milestones (emitted (handle_note Scenario.steady Scenario.settings Scenario.album
                         (startup Scenario.settings)))
  = [Attempted (Some "three photos") "unlisted" None; Saved "5"]
  /\ In (EvCreateStatus (Some "three photos") ["m_a"; "m_c"] "unlisted" None (inr tt))
        (emitted (handle_note Scenario.steady Scenario.settings Scenario.album
                    (startup Scenario.settings))).
Proof. vm_compute. intuition. Qed.

(** ** C1: the cursor *)






(** ** C3: a failed fetch *)

(** C3. When a fetch of the running loop raises a transport error
    ([RequestException]), the error goes no further: the iteration prints
    it, sleeps 30 seconds and hands over to the next iteration. None of the
    cursors moved. If no signal stopped the loop meanwhile, the next
    iteration fetches with the same [sinceId]; if one did, the loop returns
    at its next test. *)
Theorem fetch_failure_backs_off_and_retries (env : ports) (fuel : nat) (user_id : string)
    (consumer : note -> M unit) (w : world) (msg : string) :
  running w = true ->
  fetch_user_notes env (clock w) (poll_request user_id (gen_since_id w))
    = inl (RequestException msg) ->
  let w' := fst (unblock env (fst (unblock env w))) in
  stream_loop env (S fuel) user_id consumer w =
    after (EvCheckRunning true
             :: EvFetch (poll_request user_id (gen_since_id w)) (inl (RequestException msg))
             :: snd (unblock env w)
             ++ EvPrint ("Error streaming notes: " +:+ msg)
             :: EvSleep 30
             :: snd (unblock env (fst (unblock env w))))
          (stream_loop env fuel user_id consumer w')
  /\ gen_since_id w' = gen_since_id w
  /\ config_since_id w' = config_since_id w
  /\ state_file w' = state_file w
  /\ (running w' = true ->
      forall fuel', exists rest,
        emitted (stream_loop env (S fuel') user_id consumer w') =
        EvCheckRunning true
          :: EvFetch (poll_request user_id (gen_since_id w))
               (fetch_user_notes env (clock w') (poll_request user_id (gen_since_id w)))
          :: rest)
  /\ (running w' = false ->
      forall fuel',
        stream_loop env (S fuel') user_id consumer w' =
        {| res := Ok tt; final := w'; emitted := [EvCheckRunning false] |}).
Proof.
  intros Hr Hf w'.
  assert (passes w w' (snd (unblock env w) ++ snd (unblock env (fst (unblock env w)))))
    as (Hg & Hc & Hs & _)
    by (eapply passes_trans; apply unblock_passes).
  split; [now apply failed_fetch_iteration|].
  split; [exact Hg|]. split; [exact Hc|]. split; [exact Hs|]. split.
  - intros Hr' fuel'. rewrite <- Hg. now apply running_loop_fetches.
  - intros Hr' fuel'. now apply stopped_loop_returns.
Qed.

Lemma fetch_failure_backs_off_and_retries_witness :
  emitted (stream_loop Scenario.flaky 1 "u"
             (handle_note Scenario.flaky Scenario.settings) (startup Scenario.settings))
  = [EvCheckRunning true;
     EvFetch (poll_request "u" None) (inl (RequestException "timeout"));
     EvPrint "Error streaming notes: timeout";
     EvSleep 30].
Proof.
  rewrite (proj1 (fetch_failure_backs_off_and_retries Scenario.flaky 0 "u"
                    (handle_note Scenario.flaky Scenario.settings)
                    (startup Scenario.settings) "timeout" eq_refl eq_refl)).
  reflexivity.
Defined.

(** ** C4: the attachment pipeline *)

(** C4. Whatever the environment does to the attachments of a list, one
    outcome per attachment, [process_misskey_files] returns normally with
    the destination ids of exactly the attachments whose download and
    upload both succeeded, in the order of the list; and a crosspost
    attempt for a note with these attachments returns normally after
    calling [create_status] with exactly these ids, be they none. *)
Theorem attachment_pipeline_partial_failure (env : ports) (files : list file)
    (outs : list leg_outcome) (w : world) :
  realises env (clock w) files outs ->
  res (process_misskey_files env files w) = Ok (transferred_ids outs)
  /\ length outs = length files
  /\ forall (delay : Z) (n : note),
      attachments n = files ->
      res (crosspost_note env delay n w) = Ok tt
      /\ exists r evs1 evs2,
          emitted (crosspost_note env delay n w) =
          evs1 ++ EvCreateStatus (get_or (text n) "") (transferred_ids outs)
                    (misskey_to_mastodon_visibility (get_or (visibility n) "public"))
                    (get (cw n)) r
               :: evs2.
Proof.
  intros Hr. split; [|split].
  - exact (proj1 (wp_process_misskey_files_from env files outs [] w Hr)).
  - eapply realises_length; eauto.
  - intros delay n <-.
    destruct (wp_crosspost_note env delay n w)
      as (Ho & _ & outs' & r & evs1 & evs2 & Hr' & He & _).
    rewrite (realises_functional env _ _ _ _ Hr' Hr) in He. eauto 6.
Qed.

(** Three attachments, the download of the second fails: the ids of the
    first and the third come back, in this order. *)
Lemma attachment_pipeline_partial_failure_witness :
  res (process_misskey_files Scenario.steady
         [Scenario.photo "a"; Scenario.photo "b"; Scenario.photo "c"]
         (startup Scenario.settings))
  = Ok ["m_a"; "m_c"].
Proof.
  refine (proj1 (attachment_pipeline_partial_failure Scenario.steady
                   [Scenario.photo "a"; Scenario.photo "b"; Scenario.photo "c"]
                   [Transferred (Scenario.downloaded "a") "m_a";
                    DownloadFails (RequestException "404");
                    Transferred (Scenario.downloaded "c") "m_c"]
                   (startup Scenario.settings) _)).
  cbn. repeat split; reflexivity.
Defined.

(** ** C5: a post that fails *)

(** C5. A crosspost attempt returns normally whatever the ports answer, so
    no failure of an attachment transfer or of the status creation reaches
    its caller. Batch mode attempts every eligible post of the fetched
    batch, in order; continuous mode observes every post the generator
    hands over, in order, eligible posts with their attempt; and the only
    exception that can end the loop of continuous mode is one a fetch raised
    that was no transport error. *)
Theorem crosspost_failures_contained (env : ports) (config : Config) :
  (forall (n : note) (w : world),
      res (crosspost_note env (crosspost_delay config) n w) = Ok tt)
  /\ (forall (newest_id : option string) (notes : list note) (w : world),
        let r := crosspost_notes env config newest_id notes w in
        res r = Ok (newest_of newest_id notes)
        /\ milestones (emitted r) = map attempt_of (List.filter should_crosspost notes))
  /\ (forall (notes : list note) (w : world),
        let r := stream_batch (handle_note env config) notes w in
        res r = Ok tt
        /\ milestones (emitted r) = flat_map observed (yielded (gen_since_id w) notes))
  /\ (forall (fuel : nat) (w : world) (e : exn),
        res (main_loop env fuel config w) = Raised e ->
        is_RequestException e = false
        /\ exists t req, fetch_user_notes env t req = inl e).
Proof.
  split; [|split; [|split]].
  - intros n w. exact (proj1 (wp_crosspost_note env _ n w)).
  - intros newest_id notes w.
    destruct (wp_crosspost_notes env config notes newest_id w) as (Ho & _ & Hm & _). auto.
  - intros notes w.
    destruct (wp_stream_batch env config notes w) as (Ho & _ & _ & _ & _ & Hm & _). auto.
  - intros fuel w e He. destruct (wp_main_loop env config fuel w) as [Ho _].
    rewrite He in Ho. exact Ho.
Qed.

(** ** C6: cancellation *)

(** The events after the first run of the handler. *)
Fixpoint after_first_signal (evs : list event) : list event :=
  match evs with
  | [] => []
  | EvSignal :: rest => rest
  | _ :: rest => after_first_signal rest
  end.

(** The seconds of sleep asked for. *)
Fixpoint slept (evs : list event) : Z :=
  match evs with
  | [] => 0
  | EvSleep seconds :: rest => seconds + slept rest
  | _ :: rest => slept rest
  end.

(** The first event that is no run of the handler. *)
Fixpoint next_step (evs : list event) : option event :=
  match evs with
  | [] => None
  | EvSignal :: rest => next_step rest
  | e :: _ => Some e
  end.

(** The flag is tested at every sleep boundary: what follows a sleep, if
    anything, is the loop test. *)
Fixpoint tested_after_sleeps (evs : list event) : bool :=
  match evs with
  | [] => true
  | EvSleep _ :: rest =>
      match next_step rest with
      | None | Some (EvCheckRunning _) => tested_after_sleeps rest
      | Some _ => false
      end
  | _ :: rest => tested_after_sleeps rest
  end.



(** The run the counterexample looks at: a signal arrives while the first
    of two fetched posts is being created on the destination. *)
Definition interrupted_run : list event :=
  emitted (main_loop Scenario.interrupted 2 Scenario.settings (startup Scenario.settings)).

Lemma interrupted_run_events :
  interrupted_run =
  [EvCheckRunning true;
   EvFetch (poll_request "u" None) (inr [Scenario.first_note; Scenario.second_note]);
   EvCreateStatus (Some "hello world") [] "unlisted" None (inr tt);
   EvSignal;
   EvPrint "Successfully crossposted note 1";
   EvSleep 2;
   EvSaveState "1";
   EvCreateStatus (Some "second post") [] "unlisted" None (inr tt);
   EvPrint "Successfully crossposted note 2";
   EvSleep 2;
   EvSaveState "2";
   EvSleep 5;
   EvCheckRunning false].
Proof. vm_compute. reflexivity. Qed.


Lemma slow_cancellation :
  tested_after_sleeps interrupted_run = false
  /\ slept (after_first_signal interrupted_run) = 9%Z.
Proof. rewrite interrupted_run_events. split; vm_compute; reflexivity. Qed.




(** ** C8: the content warning *)

(** C8. For an eligible note the loop body of [main] calls
    [create_status] once, with the text, the mapped visibility and the
    [cw] of the note as it is, and then writes the state file. The call
    comes after the pipeline, carries the ids it collected, and the request
    body built from these arguments is what the port receives: the status
    is the text, the visibility the mapped one, [spoiler_text] is the [cw]
    when there is a non-empty one and is left out when there is none. *)
Theorem content_warning_passed_verbatim (env : ports) (config : Config) (n : note)
    (w : world) :
  should_crosspost n = true ->
  let text := get_or (text n) "" in
  let visibility := misskey_to_mastodon_visibility (get_or (visibility n) "public") in
  milestones (emitted (handle_note env config n w))
  = [Attempted text visibility (get (cw n)); Saved (note_id n)]
  /\ (exists outs r evs1 evs2 t,
        realises env (clock w) (attachments n) outs
        /\ emitted (crosspost_note env (crosspost_delay config) n w)
           = evs1 ++ EvCreateStatus text (transferred_ids outs) visibility (get (cw n)) r
                  :: evs2
        /\ uploaded_ids evs1 = transferred_ids outs
        /\ milestones evs1 = []
        /\ milestones evs2 = []
        /\ r = post_status env t
                 (status_payload text (transferred_ids outs) visibility (get (cw n))))
  /\ (forall media_ids : list string,
        let data := status_payload text media_ids visibility (get (cw n)) in
        status data = text
        /\ sd_visibility data = visibility
        /\ (media_ids <> [] -> sd_media_ids data = Some media_ids)
        /\ (forall c, get (cw n) = Some c -> c <> "" -> sd_spoiler_text data = Some c)
        /\ (get (cw n) = None -> sd_spoiler_text data = None)).
Proof.
  intros He text visibility. split; [|split].
  - destruct (wp_handle_note env config n w) as (_ & _ & _ & _ & _ & Hm & _).
    rewrite Hm. unfold observed. now rewrite He.
  - destruct (wp_crosspost_note env (crosspost_delay config) n w)
      as (_ & _ & outs & r & evs1 & evs2 & Hr & Hev & Hu & Hq1 & Hq2 & t & Ht).
    exists outs, r, evs1, evs2, t. auto 10 using milestones_quiet.
  - intros media_ids data. subst data. unfold status_payload. cbn.
    split; [reflexivity|]. split; [reflexivity|]. split; [|split].
    + now destruct media_ids.
    + intros c -> Hc. destruct c; [contradiction | reflexivity].
    + now intros ->.
Qed.

Lemma content_warning_passed_verbatim_witness :
  milestones (emitted (handle_note Scenario.steady Scenario.settings Scenario.warned_note
                         (startup Scenario.settings)))
  = [Attempted (Some "spoilers inside") "private" (Some "film"); Saved "4"].
Proof.
  exact (proj1 (content_warning_passed_verbatim Scenario.steady Scenario.settings
                  Scenario.warned_note (startup Scenario.settings) eq_refl)).
Defined.

(** ** C10: what the generator keeps of a batch *)




(** ** C9: the configuration *)

Import ConfigLoader.

(** The loop of lines 313-315 leaves a key alone that [config_dict] binds
    to a value, and gives every other key the value the file has for it, if
    it has one. *)
Lemma foldr_update_missing_lookup (config_dict : gmap string json)
    (items : list (string * json)) (key : string) :
  NoDup (items.*1) ->
  foldr (uncurry update_missing) config_dict items !! key =
  if is_None (dict_get config_dict key)
  then match (list_to_map items : gmap string json) !! key with
       | Some value => Some value
       | None => config_dict !! key
       end
  else config_dict !! key.
Proof.
  induction items as [|[k v] items IH]; intros Hnd.
  - cbn. rewrite lookup_empty. now destruct (is_None _).
  - rewrite fmap_cons in Hnd. cbn [fst] in Hnd.
    apply NoDup_cons in Hnd as [Hk Hnd]. specialize (IH Hnd).
    cbn [foldr uncurry list_to_map]. unfold update_missing at 1.
    set (d := foldr (uncurry update_missing) config_dict items) in *.
    destruct (decide (k = key)) as [->|Hne].
    + assert ((list_to_map items : gmap string json) !! key = None) as Hfile.
      { now apply not_elem_of_list_to_map_1. }
      rewrite Hfile in IH.
      assert (d !! key = config_dict !! key) as Hd by (now destruct (is_None _)).
      unfold dict_get at 1. rewrite Hd. fold (dict_get config_dict key).
      rewrite lookup_insert_eq.
      destruct (is_None (dict_get config_dict key)); [apply lookup_insert_eq | exact Hd].
    + rewrite (lookup_insert_ne _ k key) by exact Hne.
      destruct (is_None (dict_get d k)); [rewrite lookup_insert_ne by exact Hne|]; exact IH.
Qed.

Lemma map_fold_update_missing_lookup (config_dict file_config : gmap string json)
    (key : string) :
  map_fold update_missing config_dict file_config !! key =
  if is_None (dict_get config_dict key)
  then match file_config !! key with
       | Some value => Some value
       | None => config_dict !! key
       end
  else config_dict !! key.
Proof.
  rewrite map_fold_foldr, foldr_update_missing_lookup.
  - now rewrite list_to_map_to_list.
  - apply NoDup_fst_map_to_list.
Qed.

Lemma prefix_refl_app (a b : string) : String.prefix a (a +:+ b) = true.
Proof.
  induction a as [|c a IH].
  - now destruct b.
  - change (String c a +:+ b) with (String c (a +:+ b)). cbn [String.prefix].
    destruct (ascii_dec c c); [exact IH | contradiction].
Qed.

Lemma str_in_here (needle rest : string) : str_in needle (needle +:+ rest) = true.
Proof.
  destruct (needle +:+ rest) eqn:E; cbn [str_in]; rewrite <- E, prefix_refl_app; reflexivity.
Qed.

Lemma str_in_app_r (needle a b : string) :
  str_in needle b = true -> str_in needle (a +:+ b) = true.
Proof.
  intros H. induction a as [|c a IH]; [exact H|].
  change (String c a +:+ b) with (String c (a +:+ b)). cbn [str_in].
  now destruct (String.prefix needle _).
Qed.

Lemma append_nil_r (s : string) : s +:+ "" = s.
Proof.
  induction s as [|c s IH]; [reflexivity|].
  change (String c s +:+ "") with (String c (s +:+ "")). now rewrite IH.
Qed.

(** A joined string names each of its parts. *)
Lemma join_names (sep part : string) (parts : list string) :
  part ∈ parts -> str_in part (join sep parts) = true.
Proof.
  induction parts as [|p parts IH]; intros H; [now apply elem_of_nil in H|].
  apply elem_of_cons in H as [->|H].
  - destruct parts as [|q parts]; cbn [join].
    + rewrite <- (append_nil_r p) at 2. apply str_in_here.
    + apply str_in_here.
  - destruct parts as [|q parts]; [now apply elem_of_nil in H|].
    change (join sep (p :: q :: parts)) with (p +:+ sep +:+ join sep (q :: parts)).
    now apply str_in_app_r, str_in_app_r, IH.
Qed.

(** The required fields with the environment variables that set them. *)
Definition required_settings : list (string * string) :=
  [("misskey_instance", "MISSKEY_INSTANCE");
   ("misskey_token", "MISSKEY_TOKEN");
   ("misskey_user_id", "MISSKEY_USER_ID");
   ("mastodon_instance", "MASTODON_INSTANCE");
   ("mastodon_token", "MASTODON_TOKEN")].

Lemma filter_nil_of_false {A} (f : A -> bool) (l : list A) :
  (forall x, x ∈ l -> f x = false) -> List.filter f l = [].
Proof.
  induction l as [|x l IH]; intros H; [reflexivity|]. cbn.
  rewrite (H x) by (now left). apply IH. intros y Hy. apply H. now right.
Qed.

Lemma filter_ext_elem {A} (f g : A -> bool) (l : list A) :
  (forall x, x ∈ l -> f x = g x) -> List.filter f l = List.filter g l.
Proof.
  induction l as [|x l IH]; intros H; [reflexivity|]. cbn.
  rewrite (H x) by (now left). rewrite IH; [reflexivity|].
  intros y Hy. apply H. now right.
Qed.

Section Validation.

Variable py_int : string -> option Z.
Variable environ : gmap string string.
Variable read_json : string -> read_result.

(** The path of the configuration file. *)
Definition config_path : string := default "config.json" (environ !! "CONFIG_FILE").

(** What the configuration file binds, when it is there and holds a JSON
    object. *)
Definition file_config : gmap string json :=
  match read_json config_path with
  | Loaded (JObject members) => dict_of_members members
  | _ => ∅
  end.

(** A required field is absent: its variable is unset and the file has no
    value for it. *)
Definition absent (setting : string * string) : bool :=
  bool_decide (environ !! snd setting = None)
  && is_None (dict_get file_config (fst setting)).

Definition missing : list string := map fst (List.filter absent required_settings).

(** The file is looked at when a required variable is unset. *)
Definition consulted : bool :=
  existsb (fun setting => bool_decide (environ !! snd setting = None)) required_settings.

(** A file that is not there, does not decode, or holds a JSON object. *)
Definition object_or_skipped (r : read_result) : Prop :=
  match r with
  | Loaded (JObject _) | FileNotFoundError _ | JSONDecodeError _ => True
  | Loaded _ | ReadError _ => False
  end.

(** The value a required field gets. *)
Definition value_of (setting : string * string) : json :=
  match environ !! snd setting with
  | Some value => JString value
  | None => dict_get file_config (fst setting)
  end.

Lemma is_None_environ_get (name : string) :
  is_None (environ_get environ name) = bool_decide (environ !! name = None).
Proof. unfold environ_get. now destruct (environ !! name). Qed.

Lemma environment_settings_ok :
  is_Some (py_int (default "20" (environ !! "FETCH_LIMIT"))) ->
  is_Some (py_int (default "2" (environ !! "CROSSPOST_DELAY"))) ->
  exists config_dict,
    environment_settings py_int environ = inr config_dict
    /\ (forall setting, setting ∈ required_settings ->
          config_dict !! fst setting = Some (environ_get environ (snd setting)))
    /\ (forall key, is_Some (config_dict !! key) -> key ∈ Config_fields).
Proof.
  intros [fl Hfl] [cd Hcd]. unfold environment_settings, int_setting. rewrite Hfl, Hcd.
  eexists. split; [reflexivity|]. split.
  - unfold required_settings. intros setting. rewrite !elem_of_cons, elem_of_nil.
    intros [->|[->|[->|[->|[->|[]]]]]]; reflexivity.
  - intros key. rewrite !lookup_insert_is_Some, lookup_empty.
    unfold Config_fields, required_fields. cbn [app]. rewrite !elem_of_cons.
    intros H. repeat (destruct H as [<-|[_ H]]; [tauto|]). now destruct H.
Qed.

Lemma required_fields_settings : required_fields = map fst required_settings.
Proof. reflexivity. Qed.

Lemma filter_map_fst (f : string -> bool) (l : list (string * string)) :
  List.filter f (map fst l) = map fst (List.filter (fun s => f (fst s)) l).
Proof.
  induction l as [|x l IH]; [reflexivity|]. cbn. destruct (f (fst x)); cbn; now rewrite IH.
Qed.

(** Validation on a dictionary whose required fields are [None] exactly
    where they are absent. *)
Lemma validate_and_build_missing (config_dict : gmap string json) (out : list string) :
  (forall setting, setting ∈ required_settings ->
     is_None (dict_get config_dict (fst setting)) = absent setting) ->
  missing <> [] ->
  loaded (validate_and_build read_json config_dict out)
  = inl (OtherException "ValueError"
           ("Missing required configuration: " +:+ join ", " missing)).
Proof.
  intros Habs Hm. unfold validate_and_build.
  rewrite required_fields_settings, filter_map_fst.
  rewrite (filter_ext_elem _ absent) by exact Habs. fold missing.
  destruct missing; [contradiction | reflexivity].
Qed.

Lemma Config_init_ok (kwargs : gmap string json) :
  (forall key, is_Some (kwargs !! key) -> key ∈ Config_fields) ->
  (forall setting, setting ∈ required_settings -> is_Some (kwargs !! fst setting)) ->
  Config_init kwargs = inr (kwargs ∪ Config_defaults).
Proof.
  intros Hkeys Hreq. unfold Config_init.
  rewrite filter_nil_of_false.
  - rewrite filter_nil_of_false; [reflexivity|].
    intros key Hkey. apply bool_decide_eq_false. rewrite required_fields_settings in Hkey.
    apply list_elem_of_In, in_map_iff in Hkey as (setting & <- & Hs).
    apply list_elem_of_In in Hs. apply Hreq in Hs as [v ->]. discriminate.
  - intros key Hkey. apply bool_decide_eq_false. intros Hn. apply Hn, Hkeys.
    apply list_elem_of_fmap in Hkey as ([k v] & -> & Hkv).
    apply elem_of_map_to_list in Hkv. cbn. eauto.
Qed.

Lemma existsb_ext_elem {A} (f g : A -> bool) (l : list A) :
  (forall x, x ∈ l -> f x = g x) -> existsb f l = existsb g l.
Proof.
  induction l as [|x l IH]; intros H; [reflexivity|]. cbn.
  rewrite (H x) by (now left). rewrite IH; [reflexivity|].
  intros y Hy. apply H. now right.
Qed.

Lemma existsb_map_fst (f : string -> bool) (l : list (string * string)) :
  existsb f (map fst l) = existsb (fun s => f (fst s)) l.
Proof. induction l as [|x l IH]; [reflexivity|]. cbn. now rewrite IH. Qed.

Lemma consulted_false (setting : string * string) :
  consulted = false -> setting ∈ required_settings ->
  bool_decide (environ !! snd setting = None) = false.
Proof.
  unfold consulted. intros H Hs.
  destruct (bool_decide (environ !! snd setting = None)) eqn:E; [|reflexivity].
  assert (existsb (fun s => bool_decide (environ !! snd s = None)) required_settings = true)
    as H' by (apply existsb_exists; exists setting; split; [now apply list_elem_of_In | exact E]).
  congruence.
Qed.

(** The dictionary validation looks at. *)
Definition merged (config_dict : gmap string json) : gmap string json :=
  if consulted then map_fold update_missing config_dict file_config else config_dict.

Lemma load_config_merged (config_dict : gmap string json) :
  environment_settings py_int environ = inr config_dict ->
  (forall setting, setting ∈ required_settings ->
     config_dict !! fst setting = Some (environ_get environ (snd setting))) ->
  (consulted = true -> object_or_skipped (read_json config_path)) ->
  exists out,
    load_config py_int environ read_json
    = validate_and_build read_json (merged config_dict) out.
Proof.
  intros He Hget Hfile. unfold load_config. rewrite He.
  rewrite required_fields_settings, existsb_map_fst.
  rewrite (existsb_ext_elem _ (fun s => bool_decide (environ !! snd s = None))).
  2:{ intros s Hs. unfold dict_get. rewrite (Hget s Hs). apply is_None_environ_get. }
  fold consulted. unfold merged, file_config. fold config_path.
  destruct consulted; [|eauto].
  specialize (Hfile eq_refl).
  destruct (read_json config_path) as [msg|msg|e|[]]; cbn in Hfile; try contradiction;
    rewrite ?map_fold_empty; eauto.
Qed.

Lemma merged_lookup (config_dict : gmap string json) (setting : string * string) :
  (forall setting, setting ∈ required_settings ->
     config_dict !! fst setting = Some (environ_get environ (snd setting))) ->
  setting ∈ required_settings ->
  merged config_dict !! fst setting = Some (value_of setting)
  /\ is_None (value_of setting) = absent setting.
Proof.
  intros Hget Hs. unfold merged, value_of, absent.
  pose proof (Hget setting Hs) as Hc.
  destruct consulted eqn:Econs.
  - rewrite map_fold_update_missing_lookup. unfold dict_get at 1. rewrite Hc. cbn [default].
    unfold id. rewrite is_None_environ_get. unfold environ_get in *.
    destruct (environ !! snd setting) as [value|] eqn:Ee.
    + rewrite bool_decide_eq_false_2 by discriminate. auto.
    + rewrite bool_decide_eq_true_2 by reflexivity. unfold dict_get.
      destruct (file_config !! fst setting); auto.
  - pose proof (consulted_false setting Econs Hs) as Hp. rewrite Hp.
    apply bool_decide_eq_false in Hp. rewrite Hc. unfold environ_get.
    destruct (environ !! snd setting); [auto | contradiction].
Qed.

Lemma merged_keys (config_dict : gmap string json) (key : string) :
  (forall key, is_Some (config_dict !! key) -> key ∈ Config_fields) ->
  (consulted = true -> forall key, is_Some (file_config !! key) -> key ∈ Config_fields) ->
  is_Some (merged config_dict !! key) -> key ∈ Config_fields.
Proof.
  intros Hkeys Hfile. unfold merged. destruct consulted; [|apply Hkeys].
  rewrite map_fold_update_missing_lookup.
  destruct (is_None (dict_get config_dict key)); [|apply Hkeys].
  destruct (file_config !! key) eqn:E; [|apply Hkeys].
  intros _. apply Hfile; [reflexivity|]. rewrite E. eauto.
Qed.

(** C9, amended. Let [FETCH_LIMIT] and [CROSSPOST_DELAY], where set, be
    integer literals, and let the configuration file, where it is looked
    at, be missing, undecodable or a JSON object. If a required field is
    absent from the environment and from the file, [load_config] raises
    [ValueError] with the message "Missing required configuration: "
    followed by the absent fields, joined by ", " in the order of
    [required_fields]; the message names each of them. If none is absent,
    the file (where looked at) binds no key that is no field of [Config],
    and the state file is missing, undecodable or a JSON object, then
    [load_config] returns the [Config], each required field with the value
    of its variable or else of the file. *)
Theorem load_config_validates :
  is_Some (py_int (default "20" (environ !! "FETCH_LIMIT"))) ->
  is_Some (py_int (default "2" (environ !! "CROSSPOST_DELAY"))) ->
  (consulted = true -> object_or_skipped (read_json config_path)) ->
  (missing <> [] ->
   loaded (load_config py_int environ read_json)
   = inl (OtherException "ValueError"
            ("Missing required configuration: " +:+ join ", " missing))
   /\ forall field, field ∈ missing ->
        str_in field ("Missing required configuration: " +:+ join ", " missing) = true)
  /\ (missing = [] ->
      (consulted = true ->
       forall key, is_Some (file_config !! key) -> key ∈ Config_fields) ->
      object_or_skipped (read_json "crosspost_state.json") ->
      exists config,
        loaded (load_config py_int environ read_json) = inr config
        /\ forall setting, setting ∈ required_settings ->
             config !! fst setting = Some (value_of setting)
             /\ is_None (value_of setting) = false).
Proof.
  intros Hfl Hcd Hfile.
  destruct (environment_settings_ok Hfl Hcd) as (cd0 & He & Hget & Hkeys).
  destruct (load_config_merged cd0 He Hget Hfile) as [out ->].
  assert (forall setting, setting ∈ required_settings ->
            is_None (dict_get (merged cd0) (fst setting)) = absent setting) as Habs.
  { intros s Hs. destruct (merged_lookup cd0 s Hget Hs) as [Hl Hn].
    unfold dict_get. now rewrite Hl. }
  split.
  { intros Hm. split; [now apply validate_and_build_missing|].
    intros field Hf. now apply str_in_app_r, join_names. }
  intros Hm Hextra Hstate. unfold validate_and_build.
  rewrite required_fields_settings, filter_map_fst.
  rewrite (filter_ext_elem _ absent) by exact Habs. fold missing. rewrite Hm. cbn [truthy truthy_list].
  assert (forall x, exists config,
             Config_init (<["since_id" := x]> (merged cd0)) = inr config
             /\ forall setting, setting ∈ required_settings ->
                  config !! fst setting = Some (value_of setting)
                  /\ is_None (value_of setting) = false) as Hbuild.
  { intros x.
    assert (forall setting, setting ∈ required_settings ->
              <["since_id" := x]> (merged cd0) !! fst setting = Some (value_of setting)) as Hreq.
    { intros s Hs. rewrite lookup_insert_ne; [now apply merged_lookup|].
      revert Hs. unfold required_settings. rewrite !elem_of_cons, elem_of_nil.
      intros [->|[->|[->|[->|[->|[]]]]]]; discriminate. }
    eexists. split.
    - apply Config_init_ok.
      + intros key. rewrite lookup_insert_is_Some.
        intros [<-|[_ H]]; [|now apply (merged_keys cd0 key Hkeys Hextra)].
        unfold Config_fields, required_fields. cbn [app]. rewrite !elem_of_cons. tauto.
      + intros s Hs. rewrite (Hreq s Hs). eauto.
    - intros s Hs. split.
      + apply lookup_union_Some_l. now apply Hreq.
      + destruct (merged_lookup cd0 s Hget Hs) as [_ ->].
        unfold missing in Hm. apply map_eq_nil in Hm.
        destruct (absent s) eqn:E; [|reflexivity].
        assert (In s (List.filter absent required_settings)) as Hin
          by (apply filter_In; split; [now apply list_elem_of_In | exact E]).
        rewrite Hm in Hin. destruct Hin. }
  destruct (read_json "crosspost_state.json") as [msg|msg|e|[]]; cbn in Hstate;
    try contradiction; cbn [loaded]; apply Hbuild.
Qed.

End Validation.

(** [int] on plain decimal literals: an optional sign and at least one
    digit. (Python also takes surrounding blanks and underscores between
    digits; the runs below use neither.) *)
Fixpoint digits_value (acc : Z) (s : string) : option Z :=
  match s with
  | EmptyString => Some acc
  | String c rest =>
      let code := nat_of_ascii c in
      if (48 <=? code)%nat && (code <=? 57)%nat
      then digits_value (10 * acc + Z.of_nat (code - 48)) rest
      else None
  end.

Definition plain_int (s : string) : option Z :=
  match s with
  | EmptyString => None
  | String c rest =>
      if Ascii.eqb c "-" then
        match rest with EmptyString => None | _ => Z.opp <$> digits_value 0 rest end
      else if Ascii.eqb c "+" then
        match rest with EmptyString => None | _ => digits_value 0 rest end
      else digits_value 0 s
  end.

Module Startup.

(** No file anywhere. *)
Definition no_files (path : string) : read_result :=
  FileNotFoundError ("[Errno 2] No such file or directory: '" +:+ path +:+ "'").

(** The five required variables, all set. *)
Definition complete_environ : gmap string string :=
  <["MISSKEY_INSTANCE" := "https://misskey.example"]>
    (<["MISSKEY_TOKEN" := "t1"]>
       (<["MISSKEY_USER_ID" := "u1"]>
          (<["MASTODON_INSTANCE" := "https://mastodon.example"]>
             (<["MASTODON_TOKEN" := "t2"]> ∅)))).

(** Only the two instances are set. *)
Definition partial_environ : gmap string string :=
  <["MISSKEY_INSTANCE" := "https://misskey.example"]>
    (<["MASTODON_INSTANCE" := "https://mastodon.example"]> ∅).

(** Nothing required is set and the fetch limit is no number. *)
Definition bad_limit_environ : gmap string string := <["FETCH_LIMIT" := "abc"]> ∅.

(** A configuration file that holds a JSON array. *)
Definition array_config (path : string) : read_result :=
  if String.eqb path "config.json" then Loaded (JArray []) else no_files path.

(** A configuration file with the five required fields and a comment. *)
Definition commented_config (path : string) : read_result :=
  if String.eqb path "config.json"
  then Loaded (JObject [("misskey_instance", JString "https://misskey.example");
                        ("misskey_token", JString "t1");
                        ("misskey_user_id", JString "u1");
                        ("mastodon_instance", JString "https://mastodon.example");
                        ("mastodon_token", JString "t2");
                        ("comment", JString "my bot")])
  else no_files path.

(** A state file that holds a JSON array. *)
Definition array_state (path : string) : read_result :=
  if String.eqb path "crosspost_state.json" then Loaded (JArray []) else no_files path.

End Startup.

(** The claim at one configuration, as the specification states it: if a
    required field is absent, loading fails with an error whose message
    names every absent field; if none is, loading succeeds. *)
Definition startup_validation_at (py_int : string -> option Z)
    (environ : gmap string string) (read_json : string -> read_result) : Prop :=
  (missing environ read_json <> [] ->
   exists e,
     loaded (load_config py_int environ read_json) = inl e
     /\ forall field, field ∈ missing environ read_json -> str_in field (str_of_exn e) = true)
  /\ (missing environ read_json = [] ->
      exists config, loaded (load_config py_int environ read_json) = inr config).

(** Four configurations at which the claim fails: [FETCH_LIMIT=abc] with
    nothing else set (the error is that of [int]); a configuration file that
    is a JSON array (the error is that of [.items()]); a configuration file
    with a key that is no field of [Config], and a state file that is a JSON
    array (all required fields are there and loading fails all the same). *)
Lemma startup_validation_fails :
  ~ startup_validation_at plain_int Startup.bad_limit_environ Startup.no_files
  /\ ~ startup_validation_at plain_int ∅ Startup.array_config
  /\ ~ startup_validation_at plain_int ∅ Startup.commented_config
  /\ ~ startup_validation_at plain_int Startup.complete_environ Startup.array_state.
Proof.
  split; [|split; [|split]].
  - intros [H _].
    destruct H as (e & He & Hnames); [vm_compute; discriminate|].
    vm_compute in He. injection He as <-.
    specialize (Hnames "misskey_instance").
    assert ("misskey_instance" ∈ missing Startup.bad_limit_environ Startup.no_files) as Hin
      by (vm_compute; left).
    specialize (Hnames Hin). vm_compute in Hnames. discriminate Hnames.
  - intros [H _].
    destruct H as (e & He & Hnames); [vm_compute; discriminate|].
    vm_compute in He. injection He as <-.
    specialize (Hnames "misskey_instance").
    assert ("misskey_instance" ∈ missing ∅ Startup.array_config) as Hin
      by (vm_compute; left).
    specialize (Hnames Hin). vm_compute in Hnames. discriminate Hnames.
  - intros [_ H].
    destruct H as (config & Hc); [vm_compute; reflexivity|].
    vm_compute in Hc. discriminate Hc.
  - intros [_ H].
    destruct H as (config & Hc); [vm_compute; reflexivity|].
    vm_compute in Hc. discriminate Hc.
Qed.

(** Two variables set and no file: the error names the other three. All
    five set and no file: loading succeeds. *)
Lemma load_config_validates_witness :
  loaded (load_config plain_int Startup.partial_environ Startup.no_files)
  = inl (OtherException "ValueError"
           "Missing required configuration: misskey_token, misskey_user_id, mastodon_token")
  /\ exists config,
      loaded (load_config plain_int Startup.complete_environ Startup.no_files) = inr config
      /\ forall setting, setting ∈ required_settings ->
           config !! fst setting
           = Some (value_of Startup.complete_environ Startup.no_files setting)
           /\ is_None (value_of Startup.complete_environ Startup.no_files setting) = false.
Proof.
  split.
  - refine (proj1 (proj1 (load_config_validates plain_int Startup.partial_environ
                            Startup.no_files _ _ _) _)).
    + vm_compute. eauto.
    + vm_compute. eauto.
    + intros _. exact I.
    + vm_compute. discriminate.
  - refine (proj2 (load_config_validates plain_int Startup.complete_environ
                     Startup.no_files _ _ _) _ _ _).
    + vm_compute. eauto.
    + vm_compute. eauto.
    + intros _. exact I.
    + vm_compute. reflexivity.
    + intros H. vm_compute in H. discriminate H.
    + exact I.
Defined.

(** All five variables set and no file: loading succeeds. *)
Lemma load_config_complete :
  match loaded (load_config plain_int Startup.complete_environ Startup.no_files) with
  | inr config =>
      config !! "misskey_token" = Some (JString "t1")
      /\ config !! "fetch_limit" = Some (JNumber 20)
      /\ config !! "since_id" = Some JNull
  | inl _ => False
  end.
Proof. vm_compute. auto. Qed.

(** * Further properties of the script *)

Import Clients Program.

(** ** Runs read without the signal handler *)

(** The events of a run, the runs of the handler left out. *)
Definition without_signals (evs : list event) : list event :=
  List.filter (fun e => negb (is_signal e)) evs.

Lemma without_signals_app (evs1 evs2 : list event) :
  without_signals (evs1 ++ evs2) = without_signals evs1 ++ without_signals evs2.
Proof. apply List.filter_app. Qed.

Section Handler.

Variable env : ports.

Lemma without_signals_unblock (w : world) : without_signals (snd (unblock env w)) = [].
Proof. unfold unblock. destruct (signal env (clock w)); reflexivity. Qed.

Lemma without_signals_blocking (e : event) (w : world) (evs : list event) :
  is_signal e = false ->
  without_signals (e :: snd (unblock env w) ++ evs) = e :: without_signals evs.
Proof.
  intros He. change (e :: snd (unblock env w) ++ evs) with ([e] ++ snd (unblock env w) ++ evs).
  rewrite !without_signals_app, without_signals_unblock. cbn. now rewrite He.
Qed.

End Handler.

(** ** The attachment pipeline, event by event *)

(** The line [process_misskey_files] prints for an attachment that failed. *)
Definition file_error_line (f : file) (e : exn) : string :=
  "Error processing file " +:+ str_of_optional (get_or (file_name f) "unknown")
    +:+ ": " +:+ str_of_exn e.

(** What the pipeline does for one attachment under each outcome: a
    download that fails is reported; an upload that fails is reported after
    the download; a transfer is followed by the pause of one second. *)
Definition leg_events (f : file) (o : leg_outcome) : list event :=
  match o with
  | DownloadFails e =>
      [EvDownload (file_url f) (inl e); EvPrint (file_error_line f e)]
  | UploadFails att e =>
      [EvDownload (file_url f) (inr att); EvUpload (upload_request f att) (inl e);
       EvPrint (file_error_line f e)]
  | Transferred att media_id =>
      [EvDownload (file_url f) (inr att); EvUpload (upload_request f att) (inr media_id);
       EvSleep 1]
  end.

Fixpoint pipeline_events (files : list file) (outs : list leg_outcome) : list event :=
  match files, outs with
  | f :: files', o :: outs' => leg_events f o ++ pipeline_events files' outs'
  | _, _ => []
  end.

Section PipelineTrace.

Variable env : ports.

Lemma wp_pipeline_events (files : list file) :
  forall outs acc w,
    realises env (clock w) files outs ->
    wp (process_misskey_files_from env acc files)
       (fun _ _ evs => without_signals evs = pipeline_events files outs) w.
Proof.
  induction files as [|f files IH]; intros outs acc w H.
  - destruct outs; [|destruct H]. now apply wp_ret.
  - cbn [process_misskey_files_from].
    apply wp_bind, wp_try_except, wp_bind. unfold download_attachment. apply wp_call.
    destruct outs as [|[e|att e|att mid] outs]; cbn [realises] in H; try destruct H as [Hd H].
    + destruct H.
    + rewrite Hd. cbn [then_wp catch_wp]. apply wp_bind, wp_print. cbn [then_wp].
      apply wp_ret. cbn [then_wp].
      eapply wp_mono.
      { apply (IH outs acc). now rewrite clock_unblock. }
      intros o w' evs Hevs. evs_norm.
      rewrite without_signals_blocking by reflexivity.
      change (EvPrint ?l :: evs) with ([EvPrint l] ++ evs).
      rewrite without_signals_app, Hevs. reflexivity.
    + destruct H as [Hu H]. rewrite Hd. cbn [then_wp catch_wp].
      apply wp_bind. unfold upload_media. apply wp_call.
      change {| up_content := att_content att; up_filename := _;
                up_mime_type := _; up_description := _ |}
        with (upload_request f att).
      rewrite clock_unblock, Hu. cbn [then_wp catch_wp].
      apply wp_bind, wp_print. cbn [then_wp]. apply wp_ret. cbn [then_wp].
      eapply wp_mono.
      { apply (IH outs acc). now rewrite !clock_unblock. }
      intros o w' evs Hevs. evs_norm.
      rewrite !without_signals_blocking by reflexivity.
      change (EvPrint ?l :: evs) with ([EvPrint l] ++ evs).
      rewrite without_signals_app, Hevs. reflexivity.
    + destruct H as [Hu H]. rewrite Hd. cbn [then_wp catch_wp].
      apply wp_bind. unfold upload_media. apply wp_call.
      change {| up_content := att_content att; up_filename := _;
                up_mime_type := _; up_description := _ |}
        with (upload_request f att).
      rewrite clock_unblock, Hu. cbn [then_wp catch_wp].
      apply wp_bind, wp_sleep; [lia|]. cbn [then_wp]. apply wp_ret. cbn [catch_wp then_wp].
      eapply wp_mono.
      { apply (IH outs (acc ++ [mid])). now rewrite !clock_unblock. }
      intros o w' evs Hevs. evs_norm.
      rewrite !without_signals_blocking by reflexivity. rewrite Hevs. reflexivity.
Qed.

End PipelineTrace.

Lemma slept_app (evs1 evs2 : list event) :
  slept (evs1 ++ evs2) = (slept evs1 + slept evs2)%Z.
Proof.
  induction evs1 as [|e evs1 IH]; [reflexivity|].
  destruct e; cbn [app slept]; rewrite IH; lia.
Qed.

Lemma slept_without_signals (evs : list event) : slept (without_signals evs) = slept evs.
Proof.
  induction evs as [|e evs IH]; [reflexivity|].
  unfold without_signals in *. destruct e; cbn [List.filter is_signal negb slept];
    rewrite ?IH; reflexivity.
Qed.

Lemma slept_pipeline_events (env : ports) (files : list file) :
  forall t outs,
    realises env t files outs ->
    slept (pipeline_events files outs) = Z.of_nat (length (transferred_ids outs)).
Proof.
  induction files as [|f files IH]; intros t [|[e|att e|att m] outs] H; cbn [realises] in H;
    try contradiction; try reflexivity.
  - destruct H as (_ & H). cbn [pipeline_events]. rewrite slept_app. cbn. eauto.
  - destruct H as (_ & _ & H). cbn [pipeline_events]. rewrite slept_app. cbn. eauto.
  - destruct H as (_ & _ & H). cbn [pipeline_events]. rewrite slept_app.
    rewrite (IH _ _ H).
    change (transferred_ids (Transferred att m :: outs)) with (m :: transferred_ids outs).
    cbn [leg_events slept length]. lia.
Qed.

(** X1. The pipeline makes one attempt per attachment, in the order of the
    list: the download, then the upload if the download succeeded, then
    either the pause of one second (after a transfer) or one printed error
    line that names the attachment (after a failure). Nothing is retried,
    a failure costs no pause, and the pipeline sleeps one second per
    attachment transferred. *)
Theorem pipeline_one_attempt_each (env : ports) (files : list file)
    (outs : list leg_outcome) (w : world) :
  realises env (clock w) files outs ->
  without_signals (emitted (process_misskey_files env files w)) = pipeline_events files outs
  /\ slept (emitted (process_misskey_files env files w))
     = Z.of_nat (length (transferred_ids outs)).
Proof.
  intros H. pose proof (wp_pipeline_events env files outs [] w H) as Hev.
  unfold wp in Hev. fold (process_misskey_files env files) in Hev. split; [exact Hev|].
  rewrite <- slept_without_signals, Hev. eapply slept_pipeline_events; eauto.
Qed.

(** Three photos, the download of the second fails. *)
Lemma pipeline_one_attempt_each_witness :
  without_signals
    (emitted (process_misskey_files Scenario.steady
                [Scenario.photo "a"; Scenario.photo "b"; Scenario.photo "c"]
                (startup Scenario.settings)))
  = [EvDownload "a" (inr (Scenario.downloaded "a"));
     EvUpload (upload_request (Scenario.photo "a") (Scenario.downloaded "a")) (inr "m_a");
     EvSleep 1;
     EvDownload "b" (inl (RequestException "404"));
     EvPrint "Error processing file b: 404";
     EvDownload "c" (inr (Scenario.downloaded "c"));
     EvUpload (upload_request (Scenario.photo "c") (Scenario.downloaded "c")) (inr "m_c");
     EvSleep 1].
Proof.
  refine (proj1 (pipeline_one_attempt_each Scenario.steady
                   [Scenario.photo "a"; Scenario.photo "b"; Scenario.photo "c"]
                   [Transferred (Scenario.downloaded "a") "m_a";
                    DownloadFails (RequestException "404");
                    Transferred (Scenario.downloaded "c") "m_c"]
                   (startup Scenario.settings) _)).
  cbn. repeat split; reflexivity.
Defined.

(** ** How one crosspost attempt ends *)



(** ** Batch mode when the fetch fails or finds nothing *)

Lemma filter_poll_free (evs : list event) : poll_free evs -> List.filter is_poll evs = [].
Proof.
  induction 1 as [|e evs He _ IH]; [reflexivity|]. cbn. now rewrite He.
Qed.

(** X3. Batch mode makes one fetch and never reads the stop flag. It has
    no handler around that fetch: whatever the fetch raises, transport
    error or not, leaves [crosspost], and nothing but the fetch has
    happened. When the fetch finds no note, [crosspost] returns [None] and
    has done nothing else either; otherwise it returns the identifier of
    the first note. *)
Theorem batch_mode_fetches_once (env : ports) (config : Config) (w : world) :
  let r := crosspost env config w in
  let fetched := fetch_user_notes env (clock w) (batch_request config) in
  List.filter is_poll (emitted r) = [EvFetch (batch_request config) fetched]
  /\ match fetched with
     | inl e =>
         res r = Raised e
         /\ emitted r = EvFetch (batch_request config) (inl e) :: snd (unblock env w)
     | inr [] =>
         res r = Ok None
         /\ emitted r = EvFetch (batch_request config) (inr []) :: snd (unblock env w)
     | inr (n :: _) => res r = Ok (Some (note_id n))
     end.
Proof.
  cbn zeta. split.
  - change (wp (crosspost env config)
              (fun _ _ evs =>
                 List.filter is_poll evs
                 = [EvFetch (batch_request config)
                      (fetch_user_notes env (clock w) (batch_request config))]) w).
    unfold crosspost. apply wp_bind. unfold get_user_notes. apply wp_call.
    fold (batch_request config).
    destruct (fetch_user_notes env (clock w) (batch_request config)) as [e|notes];
      cbn [then_wp].
    + cbn [List.filter is_poll]. f_equal.
      apply filter_poll_free, poll_free_quiet, unblock_quiet.
    + eapply wp_mono; [apply wp_crosspost_notes|].
      intros o w2 evs2 (_ & _ & _ & Hp). cbn [app List.filter is_poll]. f_equal.
      apply filter_poll_free, poll_free_app. split; [|exact Hp].
      apply poll_free_quiet, unblock_quiet.
  - destruct (fetch_user_notes env (clock w) (batch_request config)) as [e|notes] eqn:Hf.
    + unfold crosspost, get_user_notes, mbind, M_bind, bind, call. cbn [res final emitted].
      fold (batch_request config). rewrite Hf. auto.
    + destruct notes as [|n notes].
      * unfold crosspost, get_user_notes, mbind, M_bind, bind, call. cbn [res final emitted].
        fold (batch_request config). rewrite Hf. cbn. rewrite app_nil_r. auto.
      * exact (proj1 (crosspost_fetched env config _ w Hf)).
Qed.

(** ** A poll that finds nothing *)

(** X4. An iteration of [stream_notes] whose fetch returns no note hands
    nothing to the loop body, whatever the body is, writes nothing, sleeps 5
    seconds and goes on from the top of the loop with the cursors as they
    were. *)
Theorem empty_poll_changes_nothing (env : ports) (fuel : nat) (user_id : string)
    (consumer : note -> M unit) (w : world) :
  running w = true ->
  fetch_user_notes env (clock w) (poll_request user_id (gen_since_id w)) = inr [] ->
  let w' := fst (unblock env (fst (unblock env w))) in
  stream_loop env (S fuel) user_id consumer w =
    after (EvCheckRunning true
             :: EvFetch (poll_request user_id (gen_since_id w)) (inr [])
             :: snd (unblock env w)
             ++ EvSleep 5
             :: snd (unblock env (fst (unblock env w))))
          (stream_loop env fuel user_id consumer w')
  /\ gen_since_id w' = gen_since_id w
  /\ config_since_id w' = config_since_id w
  /\ state_file w' = state_file w.
Proof.
  intros Hr Hf w'.
  assert (passes w w' (snd (unblock env w) ++ snd (unblock env (fst (unblock env w)))))
    as (Hg & Hc & Hs & _)
    by (eapply passes_trans; apply unblock_passes).
  split; [|auto].
  rewrite (result_eta (stream_loop env (S fuel) user_id consumer w)).
  change (wp (stream_loop env (S fuel) user_id consumer)
             (fun o w1 evs =>
                {| res := o; final := w1; emitted := evs |} =
                after (EvCheckRunning true
                         :: EvFetch (poll_request user_id (gen_since_id w)) (inr [])
                         :: snd (unblock env w)
                         ++ EvSleep 5
                         :: snd (unblock env (fst (unblock env w))))
                      (stream_loop env fuel user_id consumer w')) w).
  cbn [stream_loop]. apply wp_bind. unfold wp at 1.
  cbn [check_running res final emitted then_wp]. rewrite Hr.
  apply wp_bind, wp_try_except_RequestException, wp_bind. unfold wp at 1.
  cbn [get_since_id res final emitted then_wp].
  apply wp_bind. unfold get_user_notes. apply wp_call.
  fold (poll_request user_id (gen_since_id w)). rewrite Hf.
  cbn [then_wp catch_wp truthy truthy_list].
  apply wp_bind, wp_ret. cbn [then_wp]. apply wp_sleep; [lia|]. cbn [then_wp catch_wp].
  unfold wp, after. evs_norm. reflexivity.
Qed.

Module Feeds.

(** Every poll finds nothing; no signal. *)
Definition idle : ports :=
  {| fetch_user_notes := fun _ _ => inr [];
     download := download Scenario.steady;
     upload := upload Scenario.steady;
     post_status := post_status Scenario.steady;
     signal := fun _ => false |}.

End Feeds.

Lemma empty_poll_changes_nothing_witness :
  emitted (stream_loop Feeds.idle 1 "u"
             (handle_note Feeds.idle Scenario.settings) (startup Scenario.settings))
  = [EvCheckRunning true; EvFetch (poll_request "u" None) (inr []); EvSleep 5].
Proof.
  rewrite (proj1 (empty_poll_changes_nothing Feeds.idle 0 "u"
                    (handle_note Feeds.idle Scenario.settings)
                    (startup Scenario.settings) eq_refl eq_refl)).
  reflexivity.
Defined.

(** ** The shape of a run of continuous mode *)

Definition only_signals (evs : list event) : Prop :=
  Forall (fun e => is_signal e = true) evs.

(** A run of the loop of [stream_notes] under the loop body of [main],
    started with the cursor [cursor]: iteration after iteration, each one
    the test of the flag and, if it read [True], a fetch since the cursor.
    A fetch that raises a transport error is followed by the error line and
    30 seconds of sleep, with the cursor as it was; a fetch that raises
    anything else ends the run; a fetch that returns [notes] is followed by
    the handling of the notes kept, in order, and 5 seconds of sleep, and
    the next iteration starts with the cursor after [notes]. *)
Inductive polling (user_id : string) : option string -> outcome unit -> list event -> Prop :=
| polling_cut (cursor : option string) : polling user_id cursor OutOfFuel []
| polling_stopped (cursor : option string) :
    polling user_id cursor (Ok tt) [EvCheckRunning false]
| polling_aborted (cursor : option string) (e : exn) (sig : list event) :
    is_RequestException e = false ->
    only_signals sig ->
    polling user_id cursor (Raised e)
      (EvCheckRunning true :: EvFetch (poll_request user_id cursor) (inl e) :: sig)
| polling_backoff (cursor : option string) (e : exn) (sig1 sig2 : list event)
    (o : outcome unit) (rest : list event) :
    is_RequestException e = true ->
    only_signals sig1 -> only_signals sig2 ->
    polling user_id cursor o rest ->
    polling user_id cursor o
      (EvCheckRunning true :: EvFetch (poll_request user_id cursor) (inl e)
         :: sig1 ++ EvPrint ("Error streaming notes: " +:+ str_of_exn e) :: EvSleep 30
         :: sig2 ++ rest)
| polling_batch (cursor : option string) (notes : list note)
    (sig1 body sig2 : list event) (o : outcome unit) (rest : list event) :
    only_signals sig1 -> only_signals sig2 ->
    milestones body = flat_map observed (yielded cursor notes) ->
    poll_free body ->
    polling user_id (cursor_after cursor notes) o rest ->
    polling user_id cursor o
      (EvCheckRunning true :: EvFetch (poll_request user_id cursor) (inr notes)
         :: sig1 ++ body ++ EvSleep 5 :: sig2 ++ rest).

Lemma polling_not_unwound (user_id : string) (cursor : option string) (o : outcome unit)
    (evs : list event) :
  polling user_id cursor o evs -> forall e, o <> Unwound e.
Proof. induction 1; intros e'; auto; discriminate. Qed.

Section Shape.

Variable env : ports.
Variable config : Config.

Lemma unblock_only_signals (w : world) : only_signals (snd (unblock env w)).
Proof. unfold unblock. destruct (signal env (clock w)); repeat constructor. Qed.

Lemma gen_since_id_unblock (w : world) : gen_since_id (fst (unblock env w)) = gen_since_id w.
Proof. apply unblock_passes. Qed.

Lemma wp_stream_loop_polling (fuel : nat) :
  forall w,
    wp (stream_loop env fuel (misskey_user_id config) (handle_note env config))
       (fun o _ evs => polling (misskey_user_id config) (gen_since_id w) o evs) w.
Proof.
  induction fuel as [|fuel IH]; intros w; [constructor|].
  cbn [stream_loop]. apply wp_bind. unfold wp at 1.
  cbn [check_running res final emitted then_wp].
  destruct (running w) eqn:Hw; [|apply wp_ret; constructor].
  apply wp_bind, wp_try_except_RequestException, wp_bind. unfold wp at 1.
  cbn [get_since_id res final emitted then_wp].
  apply wp_bind. unfold get_user_notes. apply wp_call.
  fold (poll_request (misskey_user_id config) (gen_since_id w)).
  set (req := poll_request (misskey_user_id config) (gen_since_id w)).
  destruct (fetch_user_notes env (clock w) req) as [e|notes] eqn:Hf;
    cbn [then_wp catch_wp].
  - destruct (is_RequestException e) eqn:He.
    + apply wp_bind, wp_print. cbn [then_wp]. apply wp_sleep; [lia|]. evs_norm.
      cbn [then_wp]. eapply wp_mono; [apply IH|].
      intros o w' evs H. evs_norm.
      rewrite !gen_since_id_unblock in H.
      apply polling_backoff; auto using unblock_only_signals.
    + evs_norm. apply polling_aborted; auto using unblock_only_signals.
  - apply wp_bind.
    assert (wp (if truthy notes
                then stream_batch (handle_note env config) notes
                else mret tt)
               (fun o w2 evs2 =>
                  o = Ok tt
                  /\ gen_since_id w2 = cursor_after (gen_since_id w) notes
                  /\ milestones evs2 = flat_map observed (yielded (gen_since_id w) notes)
                  /\ poll_free evs2)
               (fst (unblock env w))) as Hbatch.
    { destruct notes as [|n notes]; cbn [truthy truthy_list].
      - apply wp_ret. rewrite gen_since_id_unblock. repeat split; constructor.
      - eapply wp_mono; [apply wp_stream_batch|].
        intros o w2 evs2 (-> & Hg & _ & _ & _ & Hm & Hp).
        rewrite gen_since_id_unblock in Hg, Hm. rewrite cursor_after_yielded in Hg.
        repeat split; auto. }
    eapply wp_mono; [exact Hbatch|].
    intros o w2 evs2 (-> & Hg & Hm & Hp). cbn [then_wp].
    apply wp_sleep; [lia|]. cbn [catch_wp then_wp]. eapply wp_mono; [apply IH|].
    intros o w' evs H. evs_norm. rewrite gen_since_id_unblock, Hg in H.
    apply polling_batch; auto using unblock_only_signals.
Qed.

Lemma main_loop_polling (fuel : nat) (w : world) :
  polling (misskey_user_id config) (config_since_id w)
    (res (main_loop env fuel config w)) (emitted (main_loop env fuel config w)).
Proof.
  change (wp (main_loop env fuel config)
            (fun o _ evs => polling (misskey_user_id config) (config_since_id w) o evs) w).
  unfold main_loop. apply wp_bind. unfold wp at 1. cbn [res final emitted then_wp].
  apply wp_for_in_generator. unfold stream_notes. apply wp_bind. unfold wp at 1.
  cbn [put_since_id res final emitted then_wp].
  eapply wp_mono; [apply wp_stream_loop_polling|].
  intros o w' evs H. cbn [app]. cbn in H.
  destruct o; auto. now apply polling_not_unwound with (e := e) in H.
Qed.

End Shape.

(** ** What each poll asks for *)

(** The identifier most recently written to the state file in [evs], or
    [cursor] if none was. *)
Fixpoint last_saved (cursor : option string) (evs : list event) : option string :=
  match evs with
  | [] => cursor
  | EvSaveState since_id :: evs' => last_saved (Some since_id) evs'
  | _ :: evs' => last_saved cursor evs'
  end.

(** Every fetch of the run asks for 10 notes of [user_id] since the
    identifier most recently written to the state file before it, or since
    [cursor] if none has been written yet. *)
Definition polls_since_last_saved (user_id : string) (cursor : option string)
    (evs : list event) : Prop :=
  forall pre req r rest,
    evs = pre ++ EvFetch req r :: rest ->
    req = poll_request user_id (last_saved cursor pre).

(** The same, read from the start of the run. *)
Fixpoint polls_since (user_id : string) (cursor : option string) (evs : list event) : Prop :=
  match evs with
  | [] => True
  | EvFetch req _ :: evs' =>
      req = poll_request user_id cursor /\ polls_since user_id cursor evs'
  | EvSaveState since_id :: evs' => polls_since user_id (Some since_id) evs'
  | _ :: evs' => polls_since user_id cursor evs'
  end.

Fixpoint last_saved_of (cursor : option string) (ms : list milestone) : option string :=
  match ms with
  | [] => cursor
  | Saved since_id :: ms' => last_saved_of (Some since_id) ms'
  | _ :: ms' => last_saved_of cursor ms'
  end.

Lemma last_saved_milestones (evs : list event) :
  forall cursor, last_saved cursor evs = last_saved_of cursor (milestones evs).
Proof.
  induction evs as [|e evs IH]; intros cursor; [reflexivity|].
  destruct e; cbn; apply IH.
Qed.

Lemma last_saved_of_app (ms1 ms2 : list milestone) :
  forall cursor,
    last_saved_of cursor (ms1 ++ ms2) = last_saved_of (last_saved_of cursor ms1) ms2.
Proof.
  induction ms1 as [|m ms1 IH]; intros cursor; [reflexivity|].
  destruct m; cbn; apply IH.
Qed.

Lemma last_saved_of_observed (ys : list note) :
  forall cursor, last_saved_of cursor (flat_map observed ys) = cursor_after cursor ys.
Proof.
  induction ys as [|n ys IH]; intros cursor; [reflexivity|].
  cbn [flat_map]. rewrite last_saved_of_app, cursor_after_cons, IH. f_equal.
  unfold observed. now destruct (should_crosspost n).
Qed.

Lemma last_saved_signals (sig : list event) (cursor : option string) :
  only_signals sig -> last_saved cursor sig = cursor.
Proof.
  induction 1 as [|e sig He _ IH]; [reflexivity|].
  destruct e; cbn in He; try discriminate. exact IH.
Qed.

Lemma last_saved_app (evs1 evs2 : list event) :
  forall cursor,
    last_saved cursor (evs1 ++ evs2) = last_saved (last_saved cursor evs1) evs2.
Proof.
  induction evs1 as [|e evs1 IH]; intros cursor; [reflexivity|].
  destruct e; cbn; apply IH.
Qed.

Lemma poll_free_signals (sig : list event) : only_signals sig -> poll_free sig.
Proof.
  intros H. eapply Forall_impl; [exact H|]. intros e He. now destruct e.
Qed.

Lemma polls_since_free (user_id : string) (evs1 : list event) :
  poll_free evs1 ->
  forall cursor evs2,
    polls_since user_id (last_saved cursor evs1) evs2 ->
    polls_since user_id cursor (evs1 ++ evs2).
Proof.
  induction 1 as [|e evs1 He _ IH]; intros cursor evs2 H; [exact H|].
  destruct e; cbn in He; try discriminate; cbn [app polls_since]; apply IH; exact H.
Qed.

Lemma polling_polls_since (user_id : string) (cursor : option string) (o : outcome unit)
    (evs : list event) :
  polling user_id cursor o evs -> polls_since user_id cursor evs.
Proof.
  induction 1 as [cursor|cursor|cursor e sig He Hs
                 |cursor e sig1 sig2 o rest He Hs1 Hs2 _ IH
                 |cursor notes sig1 body sig2 o rest Hs1 Hs2 Hm Hp _ IH];
    cbn [polls_since]; auto.
  - split; [reflexivity|]. rewrite <- (app_nil_r sig).
    apply polls_since_free; [now apply poll_free_signals | exact I].
  - split; [reflexivity|].
    apply polls_since_free; [now apply poll_free_signals|]. cbn [polls_since].
    apply polls_since_free; [now apply poll_free_signals|].
    now rewrite !last_saved_signals.
  - split; [reflexivity|].
    apply polls_since_free; [now apply poll_free_signals|].
    apply polls_since_free; [exact Hp|]. cbn [polls_since].
    apply polls_since_free; [now apply poll_free_signals|].
    rewrite (last_saved_signals sig2) by assumption.
    rewrite last_saved_milestones, Hm, last_saved_of_observed, last_saved_signals by assumption.
    now rewrite cursor_after_yielded.
Qed.

Lemma polls_since_at (user_id : string) (pre : list event) :
  forall cursor req r rest,
    polls_since user_id cursor (pre ++ EvFetch req r :: rest) ->
    req = poll_request user_id (last_saved cursor pre).
Proof.
  induction pre as [|e pre IH]; intros cursor req r rest H.
  - now destruct H.
  - destruct e; cbn [app polls_since last_saved] in *; try (eapply IH; exact H).
    destruct H as [_ H]. eapply IH; exact H.
Qed.

(** X5. In continuous mode every poll asks for 10 notes of
    [config.misskey_user_id] (never [config.fetch_limit]), since the
    identifier most recently written to the state file during the run, or
    since [config.since_id] as long as none has been written: the cursor
    the generator polls with and the cursor that is persisted never drift
    apart. *)
Theorem polls_follow_persisted_cursor (env : ports) (fuel : nat) (config : Config)
    (w : world) :
  polls_since_last_saved (misskey_user_id config) (config_since_id w)
    (emitted (main_loop env fuel config w)).
Proof.
  intros pre req r rest E. eapply polls_since_at. rewrite <- E.
  eapply polling_polls_since, main_loop_polling.
Qed.

(** ** The pace of the polls *)

(** Between any two fetches of the run the loop slept its 5 seconds, or
    the 30 seconds that follow a transport error. *)
Definition paced (evs : list event) : Prop :=
  forall pre req r mid req' r' post,
    evs = pre ++ EvFetch req r :: mid ++ EvFetch req' r' :: post ->
    exists seconds, (seconds = 5 \/ seconds = 30)%Z /\ In (EvSleep seconds) mid.

Definition is_poll_sleep (seconds : Z) : bool := (seconds =? 5)%Z || (seconds =? 30)%Z.

(** The same, read from the start of the run: [rested] says that the loop
    slept 5 or 30 seconds since the last fetch. *)
Fixpoint paced_from (rested : bool) (evs : list event) : Prop :=
  match evs with
  | [] => True
  | EvFetch _ _ :: evs' => rested = true /\ paced_from false evs'
  | EvSleep seconds :: evs' => paced_from (rested || is_poll_sleep seconds) evs'
  | _ :: evs' => paced_from rested evs'
  end.

Lemma paced_from_free (evs1 : list event) :
  poll_free evs1 ->
  forall rested evs2, paced_from true evs2 -> paced_from true (evs1 ++ evs2)
                      /\ (evs2 = [] -> paced_from rested evs1).
Proof.
  induction 1 as [|e evs1 He _ IH]; intros rested evs2 H.
  - split; [exact H | intros _; exact I].
  - destruct e; cbn in He; try discriminate; cbn [app paced_from orb];
      split; try (apply (IH rested evs2 H)); try (intros E; now apply (IH _ evs2 H)).
Qed.

Lemma paced_from_sleep (evs1 : list event) :
  poll_free evs1 ->
  forall rested seconds evs2,
    is_poll_sleep seconds = true ->
    paced_from true evs2 ->
    paced_from rested (evs1 ++ EvSleep seconds :: evs2).
Proof.
  induction 1 as [|e evs1 He _ IH]; intros rested seconds evs2 Hs H.
  - cbn. now rewrite Hs, orb_true_r.
  - destruct e; cbn in He; try discriminate; cbn [app paced_from]; now apply IH.
Qed.

Lemma polling_paced_from (user_id : string) (cursor : option string) (o : outcome unit)
    (evs : list event) :
  polling user_id cursor o evs -> paced_from true evs.
Proof.
  induction 1 as [cursor|cursor|cursor e sig He Hs
                 |cursor e sig1 sig2 o rest He Hs1 Hs2 _ IH
                 |cursor notes sig1 body sig2 o rest Hs1 Hs2 Hm Hp _ IH];
    cbn [paced_from]; auto.
  - split; [reflexivity|].
    now apply (paced_from_free sig (poll_free_signals sig Hs) false [] I).
  - split; [reflexivity|].
    change (sig1 ++ EvPrint ?l :: EvSleep 30 :: sig2 ++ rest)
      with (sig1 ++ [EvPrint l] ++ EvSleep 30 :: sig2 ++ rest).
    rewrite app_assoc. apply paced_from_sleep; [|reflexivity|].
    + apply poll_free_app. split; [now apply poll_free_signals | repeat constructor].
    + now apply (paced_from_free sig2 (poll_free_signals sig2 Hs2) true rest IH).
  - split; [reflexivity|].
    rewrite app_assoc. apply paced_from_sleep; [|reflexivity|].
    + apply poll_free_app. split; [now apply poll_free_signals | exact Hp].
    + now apply (paced_from_free sig2 (poll_free_signals sig2 Hs2) true rest IH).
Qed.

Lemma paced_from_next_fetch (mid : list event) :
  forall rested req r post,
    paced_from rested (mid ++ EvFetch req r :: post) ->
    rested = true
    \/ exists seconds, (seconds = 5 \/ seconds = 30)%Z /\ In (EvSleep seconds) mid.
Proof.
  induction mid as [|e mid IH]; intros rested req r post H.
  - left. now destruct H.
  - assert (forall b, paced_from b (mid ++ EvFetch req r :: post) ->
              b = true
              \/ exists seconds, (seconds = 5 \/ seconds = 30)%Z
                                 /\ In (EvSleep seconds) (e :: mid)) as Hrec.
    { intros b Hb. destruct (IH b req r post Hb) as [?|(s & Hs & Hin)]; [now left|].
      right. exists s. split; [exact Hs | now right]. }
    destruct e; cbn [app paced_from] in H; try (now apply Hrec).
    + destruct H as [_ H]. destruct (Hrec false H) as [?|?]; [discriminate | now right].
    + destruct (Hrec _ H) as [Hb|?]; [|now right].
      apply orb_true_iff in Hb as [?|Hb]; [now left|]. right. exists seconds.
      split; [|now left]. unfold is_poll_sleep in Hb.
      apply orb_true_iff in Hb as [Hb|Hb]; apply Z.eqb_eq in Hb; auto.
Qed.

Lemma paced_from_paced (evs : list event) :
  forall rested, paced_from rested evs -> paced evs.
Proof.
  intros rested H pre. revert rested evs H.
  induction pre as [|e pre IH]; intros rested evs H req r mid req' r' post ->.
  - destruct H as [_ H]. destruct (paced_from_next_fetch _ _ _ _ _ H) as [?|?];
      [discriminate | assumption].
  - destruct e; cbn [app paced_from] in H; try (eapply IH; [exact H | reflexivity]).
    destruct H as [_ H]. eapply IH; [exact H | reflexivity].
Qed.

(** X6. Continuous mode never polls twice in a row without pause: between
    any two fetches of a run the loop slept its 5 seconds, or the 30
    seconds of the back-off after a transport error, and this whether the
    batch before was empty or not. *)
Theorem polls_are_paced (env : ports) (fuel : nat) (config : Config) (w : world) :
  paced (emitted (main_loop env fuel config w)).
Proof.
  eapply paced_from_paced. eapply polling_paced_from, main_loop_polling.
Qed.

(** ** How the generator returns *)

(** The run ends normally exactly through a loop test that read [False],
    and nothing follows such a test. *)
Definition returns_at_stop (o : outcome unit) (evs : list event) : Prop :=
  (o = Ok tt <-> exists pre, evs = pre ++ [EvCheckRunning false])
  /\ forall pre rest, evs = pre ++ EvCheckRunning false :: rest -> rest = [].

Lemma app_cons_split {A} (x : A) (l1 : list A) :
  Forall (fun y => y <> x) l1 ->
  forall l2 pre rest,
    l1 ++ l2 = pre ++ x :: rest ->
    exists pre', pre = l1 ++ pre' /\ l2 = pre' ++ x :: rest.
Proof.
  induction 1 as [|y l1 Hy _ IH]; intros l2 pre rest E.
  - now exists pre.
  - destruct pre as [|p pre]; cbn in E; injection E as -> E; [contradiction|].
    destruct (IH _ _ _ E) as (pre' & -> & ->). now exists pre'.
Qed.

Lemma returns_at_stop_after (evs1 : list event) (o : outcome unit) (evs2 : list event) :
  Forall (fun e => e <> EvCheckRunning false) evs1 ->
  returns_at_stop o evs2 -> returns_at_stop o (evs1 ++ evs2).
Proof.
  intros Hfree [Hiff Hlast]. split.
  - rewrite Hiff. split.
    + intros [pre ->]. exists (evs1 ++ pre). now rewrite app_assoc.
    + intros [pre E]. destruct (app_cons_split _ _ Hfree _ _ _ E) as (pre' & _ & ->). eauto.
  - intros pre rest E. destruct (app_cons_split _ _ Hfree _ _ _ E) as (pre' & _ & E').
    eauto.
Qed.

Lemma poll_free_no_stop (evs : list event) :
  poll_free evs -> Forall (fun e => e <> EvCheckRunning false) evs.
Proof.
  intros H. eapply Forall_impl; [exact H|]. intros e He ->. discriminate He.
Qed.

Lemma polling_returns_at_stop (user_id : string) (cursor : option string)
    (o : outcome unit) (evs : list event) :
  polling user_id cursor o evs -> returns_at_stop o evs.
Proof.
  induction 1 as [cursor|cursor|cursor e sig He Hs
                 |cursor e sig1 sig2 o rest He Hs1 Hs2 _ IH
                 |cursor notes sig1 body sig2 o rest Hs1 Hs2 Hm Hp _ IH].
  - split.
    + split; [discriminate | intros [[|? ?] ?]; discriminate].
    + intros [|? ?] ? ?; discriminate.
  - split.
    + split; [now exists [] | reflexivity].
    + intros [|? [|? ?]] rest E; cbn in E; try discriminate. now injection E.
  - rewrite <- (app_nil_r (EvCheckRunning true :: _ :: sig)).
    apply returns_at_stop_after.
    + repeat (constructor; [discriminate|]). now apply poll_free_no_stop, poll_free_signals.
    + split.
      * split; [discriminate | intros [[|? ?] ?]; discriminate].
      * intros [|? ?] ? ?; discriminate.
  - replace (EvCheckRunning true :: EvFetch (poll_request user_id cursor) (inl e)
               :: sig1 ++ EvPrint ("Error streaming notes: " +:+ str_of_exn e) :: EvSleep 30
               :: sig2 ++ rest)
      with ((EvCheckRunning true :: EvFetch (poll_request user_id cursor) (inl e)
               :: sig1 ++ EvPrint ("Error streaming notes: " +:+ str_of_exn e) :: EvSleep 30
               :: sig2) ++ rest)
      by (cbn [app]; now rewrite <- !app_assoc).
    apply returns_at_stop_after; [|exact IH].
    repeat (constructor; [discriminate|]). apply Forall_app. split.
    + now apply poll_free_no_stop, poll_free_signals.
    + repeat (constructor; [discriminate|]). now apply poll_free_no_stop, poll_free_signals.
  - replace (EvCheckRunning true :: EvFetch (poll_request user_id cursor) (inr notes)
               :: sig1 ++ body ++ EvSleep 5 :: sig2 ++ rest)
      with ((EvCheckRunning true :: EvFetch (poll_request user_id cursor) (inr notes)
               :: sig1 ++ body ++ EvSleep 5 :: sig2) ++ rest)
      by (cbn [app]; now rewrite <- !app_assoc).
    apply returns_at_stop_after; [|exact IH].
    repeat (constructor; [discriminate|]). apply Forall_app. split.
    + now apply poll_free_no_stop, poll_free_signals.
    + apply Forall_app. split; [now apply poll_free_no_stop|].
      constructor; [discriminate|]. now apply poll_free_no_stop, poll_free_signals.
Qed.

(** X7. The loop of continuous mode returns only through a test of the
    flag that reads [False], and that test is the last thing it does: the
    generator never returns on its own, and once a test has seen the stop
    request nothing is fetched, posted, slept or written any more. *)
Theorem loop_returns_only_at_stop (env : ports) (fuel : nat) (config : Config) (w : world) :
  returns_at_stop (res (main_loop env fuel config w)) (emitted (main_loop env fuel config w)).
Proof. eapply polling_returns_at_stop, main_loop_polling. Qed.

(** ** What continuous mode posts *)

(** Every status the run created and every identifier it wrote to the
    state file belongs to a note of a batch the run fetched; the statuses
    are attempts for eligible notes only. *)
Definition posts_only_fetched (evs : list event) : Prop :=
  (forall text media_ids visibility spoiler_text r,
      In (EvCreateStatus text media_ids visibility spoiler_text r) evs ->
      exists req notes n,
        In (EvFetch req (inr notes)) evs /\ In n notes
        /\ should_crosspost n = true
        /\ attempt_of n = Attempted text visibility spoiler_text)
  /\ (forall since_id,
        In (EvSaveState since_id) evs ->
        exists req notes n,
          In (EvFetch req (inr notes)) evs /\ In n notes /\ note_id n = since_id).

Lemma yielded_subset (notes : list note) :
  forall cursor n, In n (yielded cursor notes) -> In n notes.
Proof.
  induction notes as [|m notes IH]; intros cursor n H; [exact H|].
  cbn [yielded] in H. destruct (decide (cursor = Some (note_id m))).
  - right. eauto.
  - destruct H as [->|H]; [now left | right; eauto].
Qed.

Lemma in_milestones (evs : list event) (e : event) (m : milestone) :
  In e evs -> milestone_of e = Some m -> In m (milestones evs).
Proof.
  intros He Hm. apply list_elem_of_In, list_elem_of_omap.
  exists e. split; [now apply list_elem_of_In | exact Hm].
Qed.

Lemma in_observed (ys : list note) (m : milestone) :
  In m (flat_map observed ys) ->
  exists n, In n ys
            /\ (m = Saved (note_id n) \/ should_crosspost n = true /\ m = attempt_of n).
Proof.
  intros H. apply in_flat_map in H as (n & Hn & Hm). exists n. split; [exact Hn|].
  unfold observed in Hm. destruct (should_crosspost n); cbn in Hm.
  - destruct Hm as [<-|[<-|[]]]; auto.
  - destruct Hm as [<-|[]]; auto.
Qed.

Lemma signals_no_milestone (sig : list event) (e : event) :
  only_signals sig -> In e sig -> milestone_of e = None.
Proof.
  intros Hs He. eapply Forall_forall in Hs; [|apply list_elem_of_In; exact He].
  now destruct e.
Qed.

Lemma posts_only_fetched_after (evs1 evs2 : list event) :
  (forall e, In e evs1 -> milestone_of e = None) ->
  posts_only_fetched evs2 -> posts_only_fetched (evs1 ++ evs2).
Proof.
  intros Hnone [Hc Hs]. split.
  - intros text ids vis sp r Hin. apply in_app_or in Hin as [Hin|Hin].
    + apply Hnone in Hin. discriminate Hin.
    + destruct (Hc _ _ _ _ _ Hin) as (req & notes & n & Hf & H).
      exists req, notes, n. split; [apply in_or_app; now right | exact H].
  - intros id Hin. apply in_app_or in Hin as [Hin|Hin].
    + apply Hnone in Hin. discriminate Hin.
    + destruct (Hs _ Hin) as (req & notes & n & Hf & H).
      exists req, notes, n. split; [apply in_or_app; now right | exact H].
Qed.

Lemma polling_posts_only_fetched (user_id : string) (cursor : option string)
    (o : outcome unit) (evs : list event) :
  polling user_id cursor o evs -> posts_only_fetched evs.
Proof.
  induction 1 as [cursor|cursor|cursor e sig He Hs
                 |cursor e sig1 sig2 o rest He Hs1 Hs2 _ IH
                 |cursor notes sig1 body sig2 o rest Hs1 Hs2 Hm Hp _ IH].
  - split; intros; contradiction.
  - split; [intros ? ? ? ? ? [H|[]] | intros ? [H|[]]]; discriminate H.
  - rewrite <- (app_nil_r (EvCheckRunning true :: _ :: sig)).
    apply posts_only_fetched_after; [|split; intros; contradiction].
    intros e' [<-|[<-|Hin]]; try reflexivity. now apply (signals_no_milestone sig).
  - replace (EvCheckRunning true :: EvFetch (poll_request user_id cursor) (inl e)
               :: sig1 ++ EvPrint ("Error streaming notes: " +:+ str_of_exn e) :: EvSleep 30
               :: sig2 ++ rest)
      with ((EvCheckRunning true :: EvFetch (poll_request user_id cursor) (inl e)
               :: sig1 ++ EvPrint ("Error streaming notes: " +:+ str_of_exn e) :: EvSleep 30
               :: sig2) ++ rest)
      by (cbn [app]; now rewrite <- !app_assoc).
    apply posts_only_fetched_after; [|exact IH].
    intros e' [<-|[<-|Hin]]; try reflexivity.
    apply in_app_or in Hin as [Hin|[<-|[<-|Hin]]]; try reflexivity.
    + now apply (signals_no_milestone sig1).
    + now apply (signals_no_milestone sig2).
  - assert (forall e, In e body -> forall m, milestone_of e = Some m ->
              exists n, In n notes
                        /\ (m = Saved (note_id n)
                            \/ should_crosspost n = true /\ m = attempt_of n)) as Hbody.
    { intros e He m Hem. pose proof (in_milestones body e m He Hem) as Hin.
      rewrite Hm in Hin. apply in_observed in Hin as (n & Hn & H).
      exists n. split; [now apply yielded_subset in Hn | exact H]. }
    set (fetch := EvFetch (poll_request user_id cursor) (inr notes)).
    assert (forall e, In e (EvCheckRunning true :: fetch
                              :: sig1 ++ body ++ EvSleep 5 :: sig2 ++ rest) ->
              In e body \/ In e rest \/ milestone_of e = None) as Hwhere.
    { intros e [<-|[<-|Hin]]; auto.
      apply in_app_or in Hin as [Hin|Hin]; [right; right; now apply (signals_no_milestone sig1)|].
      apply in_app_or in Hin as [Hin|[<-|Hin]]; auto.
      apply in_app_or in Hin as [Hin|Hin]; auto.
      right; right; now apply (signals_no_milestone sig2). }
    assert (forall req' notes', In (EvFetch req' (inr notes')) rest ->
              In (EvFetch req' (inr notes'))
                 (EvCheckRunning true :: fetch :: sig1 ++ body ++ EvSleep 5 :: sig2 ++ rest))
      as Hrest.
    { intros req' notes' Hin. right. right. apply in_or_app. right. apply in_or_app. right.
      right. apply in_or_app. now right. }
    destruct IH as [IHc IHs]. split.
    + intros text ids vis sp r Hin. destruct (Hwhere _ Hin) as [Hb|[Hr|Hn]].
      * destruct (Hbody _ Hb _ eq_refl) as (n & Hn & [H|[He H]]); [discriminate H|].
        exists (poll_request user_id cursor), notes, n.
        split; [right; now left|]. auto.
      * destruct (IHc _ _ _ _ _ Hr) as (req' & notes' & n & Hf & H).
        exists req', notes', n. auto.
      * discriminate Hn.
    + intros id Hin. destruct (Hwhere _ Hin) as [Hb|[Hr|Hn]].
      * destruct (Hbody _ Hb _ eq_refl) as (n & Hn & [H|[_ H]]); [|discriminate H].
        exists (poll_request user_id cursor), notes, n.
        split; [right; now left|]. split; [exact Hn|]. now injection H.
      * destruct (IHs _ Hr) as (req' & notes' & n & Hf & H).
        exists req', notes', n. auto.
      * discriminate Hn.
Qed.

(** X8. Continuous mode posts nothing it did not fetch and nothing that
    is not eligible: every status it creates is the attempt for a note of a
    batch it fetched that passes [should_crosspost] (so never a reply, a
    renote or a note with a mention), with that note's text, mapped
    visibility and content warning; and every identifier it writes to the
    state file is that of a fetched note. *)
Theorem only_eligible_fetched_notes_are_posted (env : ports) (fuel : nat) (config : Config)
    (w : world) :
  posts_only_fetched (emitted (main_loop env fuel config w)).
Proof. eapply polling_posts_only_fetched, main_loop_polling. Qed.

(** ** What leaves [main] *)

(** What [main] comes to, by how its loop ended. *)
Lemma main_run (env : ports) (fuel : nat) (config : Config) (w : world) :
  let r := main env fuel config w in
  let loop := main_loop env fuel config (set_config_since_id (since_id config) w) in
  res r = match res loop with
          | Raised _ => Ok tt
          | o => o
          end
  /\ final r = set_running false (final loop)
  /\ emitted r
     = EvPrint "Starting to listen for new notes..."
         :: emitted loop
         ++ match res loop with
            | Raised e => [EvPrint ("Error in main function: " +:+ str_of_exn e)]
            | _ => []
            end.
Proof.
  cbn zeta. unfold main, try_except, mbind, M_bind, bind.
  cbn [put_config_since_id print res final emitted after app].
  destruct (res (main_loop env fuel config (set_config_since_id (since_id config) w)))
    as [[]|e|e|] eqn:E; cbn [res final emitted after app];
    rewrite ?E; cbn [res final emitted after app]; rewrite ?app_nil_r; auto.
Qed.

(** X9. Once the configuration is loaded, nothing leaves [main]: whatever
    the ports answer, [main] returns normally (or the model's fuel runs
    out), and [stop_streaming] has run, so [_running] is [False] at the
    end. Its output is the start line, then what the loop did, then, if an
    exception ended the loop, one line "Error in main function: " with that
    exception. *)
Theorem main_contains_every_error (env : ports) (fuel : nat) (config : Config)
    (w : world) :
  let r := main env fuel config w in
  let loop := main_loop env fuel config (set_config_since_id (since_id config) w) in
  (res r = Ok tt \/ res r = OutOfFuel)
  /\ running (final r) = false
  /\ emitted r
     = EvPrint "Starting to listen for new notes..."
         :: emitted loop
         ++ match res loop with
            | Raised e => [EvPrint ("Error in main function: " +:+ str_of_exn e)]
            | _ => []
            end.
Proof.
  cbn zeta. destruct (main_run env fuel config w) as (Hr & Hf & He).
  destruct (wp_main_loop env config fuel (set_config_since_id (since_id config) w)) as [Ho _].
  rewrite Hr, Hf, He. split; [|split; [reflexivity | reflexivity]].
  destruct (res (main_loop env fuel config (set_config_since_id (since_id config) w)))
    as [[]|e|e|]; cbn in Ho |- *; auto. contradiction.
Qed.

(** ** Where each setting of the configuration comes from *)

Lemma Config_init_inr (kwargs config : gmap string json) :
  Config_init kwargs = inr config -> config = kwargs ∪ Config_defaults.
Proof.
  unfold Config_init.
  destruct (List.filter _ ((map_to_list kwargs).*1)); [|discriminate].
  destruct (List.filter _ required_fields); [|discriminate].
  congruence.
Qed.

Section Sources.

Variable py_int : string -> option Z.
Variable environ : gmap string string.
Variable read_json : string -> read_result.

(** What the state file gives for [since_id] (lines 327-333): the value
    of its key "since_id", [None] when the key or the file is missing or the
    file does not decode. *)
Definition persisted_since_id : json :=
  match read_json "crosspost_state.json" with
  | Loaded (JObject members) => dict_get (dict_of_members members) "since_id"
  | _ => JNull
  end.

Lemma validate_and_build_inr (config_dict : gmap string json) (out : list string)
    (config : gmap string json) :
  loaded (validate_and_build read_json config_dict out) = inr config ->
  config = <["since_id" := persisted_since_id]> config_dict ∪ Config_defaults.
Proof.
  unfold validate_and_build, persisted_since_id.
  destruct (truthy _); [discriminate|].
  destruct (read_json "crosspost_state.json") as [msg|msg|e|[]]; cbn [loaded];
    try discriminate; apply Config_init_inr.
Qed.

Lemma environment_settings_inr (config_dict : gmap string json) :
  environment_settings py_int environ = inr config_dict ->
  (forall setting, setting ∈ required_settings ->
     config_dict !! fst setting = Some (environ_get environ (snd setting)))
  /\ config_dict !! "fetch_limit"
     = JNumber <$> py_int (default "20" (environ !! "FETCH_LIMIT"))
  /\ config_dict !! "crosspost_delay"
     = JNumber <$> py_int (default "2" (environ !! "CROSSPOST_DELAY"))
  /\ config_dict !! "since_id" = None.
Proof.
  unfold environment_settings, int_setting.
  destruct (py_int (default "20" (environ !! "FETCH_LIMIT"))) as [fl|]; [|discriminate].
  destruct (py_int (default "2" (environ !! "CROSSPOST_DELAY"))) as [cd|]; [|discriminate].
  intros [= <-]. split; [|split; [|split]]; try reflexivity.
  unfold required_settings. intros setting. rewrite !elem_of_cons, elem_of_nil.
  intros [->|[->|[->|[->|[->|[]]]]]]; reflexivity.
Qed.

(** The dictionary validation looks at binds the two numbers as the
    environment gave them, whatever the file holds. *)
Lemma load_config_inr (config : gmap string json) :
  loaded (load_config py_int environ read_json) = inr config ->
  exists config_dict,
    config = <["since_id" := persisted_since_id]> config_dict ∪ Config_defaults
    /\ config_dict !! "fetch_limit"
       = JNumber <$> py_int (default "20" (environ !! "FETCH_LIMIT"))
    /\ config_dict !! "crosspost_delay"
       = JNumber <$> py_int (default "2" (environ !! "CROSSPOST_DELAY"))
    /\ is_Some (py_int (default "20" (environ !! "FETCH_LIMIT")))
    /\ is_Some (py_int (default "2" (environ !! "CROSSPOST_DELAY"))).
Proof.
  unfold load_config.
  destruct (environment_settings py_int environ) as [e|cd0] eqn:He; [discriminate|].
  destruct (environment_settings_inr cd0 He) as (_ & Hfl & Hcd & _).
  assert (is_Some (py_int (default "20" (environ !! "FETCH_LIMIT")))
          /\ is_Some (py_int (default "2" (environ !! "CROSSPOST_DELAY")))) as [Hfl' Hcd'].
  { revert He. unfold environment_settings, int_setting.
    destruct (py_int (default "20" (environ !! "FETCH_LIMIT"))); [|discriminate].
    destruct (py_int (default "2" (environ !! "CROSSPOST_DELAY"))); [|discriminate].
    eauto. }
  assert (forall d, d !! "fetch_limit" = cd0 !! "fetch_limit" ->
                    d !! "crosspost_delay" = cd0 !! "crosspost_delay" ->
                    forall out,
                      loaded (validate_and_build read_json d out) = inr config ->
                      exists config_dict,
                        config = <["since_id" := persisted_since_id]> config_dict
                                   ∪ Config_defaults
                        /\ config_dict !! "fetch_limit"
                           = JNumber <$> py_int (default "20" (environ !! "FETCH_LIMIT"))
                        /\ config_dict !! "crosspost_delay"
                           = JNumber <$> py_int (default "2" (environ !! "CROSSPOST_DELAY"))
                        /\ is_Some (py_int (default "20" (environ !! "FETCH_LIMIT")))
                        /\ is_Some (py_int (default "2" (environ !! "CROSSPOST_DELAY"))))
    as Hbuild.
  { intros d H1 H2 out H. exists d. rewrite H1, H2.
    split; [now apply (validate_and_build_inr d out)|]. auto. }
  destruct (existsb _ required_fields); [|now apply Hbuild].
  destruct (read_json (default "config.json" (environ !! "CONFIG_FILE")))
    as [msg|msg|e|[]]; cbn [loaded]; try discriminate; try (now apply Hbuild).
  apply Hbuild; rewrite map_fold_update_missing_lookup; unfold dict_get.
  - rewrite Hfl. now destruct Hfl' as [fl ->].
  - rewrite Hcd. now destruct Hcd' as [cd ->].
Qed.

Lemma load_config_since_id (config : gmap string json) :
  loaded (load_config py_int environ read_json) = inr config ->
  config !! "since_id" = Some persisted_since_id.
Proof.
  intros H. destruct (load_config_inr config H) as (d & -> & _).
  apply lookup_union_Some_l, lookup_insert_eq.
Qed.

(** X10. Whatever the configuration file holds, a loaded [Config] has its
    [fetch_limit] and [crosspost_delay] from [FETCH_LIMIT] and
    [CROSSPOST_DELAY] or else the defaults 20 and 2 (the file cannot set
    them: the environment always gives them a value, and the file only
    fills values that are [None]), and its [since_id] from the state file
    alone, [None] when that file or its key is missing: a [since_id] in the
    configuration file is overwritten. *)
Theorem load_config_sources (config : gmap string json) :
  loaded (load_config py_int environ read_json) = inr config ->
  config !! "fetch_limit" = JNumber <$> py_int (default "20" (environ !! "FETCH_LIMIT"))
  /\ config !! "crosspost_delay"
     = JNumber <$> py_int (default "2" (environ !! "CROSSPOST_DELAY"))
  /\ config !! "since_id" = Some persisted_since_id.
Proof.
  intros H. destruct (load_config_inr config H) as (d & -> & Hfl & Hcd & [fl Hfl'] & [cd Hcd']).
  rewrite Hfl' in *. rewrite Hcd' in *. cbn [fmap option_fmap option_map] in *.
  split; [|split]; apply lookup_union_Some_l.
  - now rewrite lookup_insert_ne.
  - now rewrite lookup_insert_ne.
  - apply lookup_insert_eq.
Qed.

End Sources.

Module Restart.

(** A configuration file that also sets the two numbers and a cursor, and
    a state file written by an earlier run. *)
Definition tuned (path : string) : read_result :=
  if String.eqb path "config.json"
  then Loaded (JObject [("misskey_instance", JString "https://misskey.example");
                        ("misskey_token", JString "t1");
                        ("misskey_user_id", JString "u1");
                        ("mastodon_instance", JString "https://mastodon.example");
                        ("mastodon_token", JString "t2");
                        ("fetch_limit", JNumber 50);
                        ("crosspost_delay", JNumber 0);
                        ("since_id", JString "9old")])
  else if String.eqb path "crosspost_state.json"
  then Loaded (state_document "9xyz" "2024-05-01T12:00:00")
  else Startup.no_files path.

(** The state file of an earlier run and nothing else. *)
Definition resumed (path : string) : read_result :=
  if String.eqb path "crosspost_state.json"
  then Loaded (state_document "9xyz" "2024-05-01T12:00:00")
  else Startup.no_files path.

End Restart.

(** The file asks for 50 notes, no delay and the cursor "9old"; the loaded
    configuration has 20, 2 and the cursor of the state file. *)
Lemma load_config_sources_witness :
  match loaded (load_config plain_int ∅ Restart.tuned) with
  | inr config =>
      config !! "fetch_limit" = Some (JNumber 20)
      /\ config !! "crosspost_delay" = Some (JNumber 2)
      /\ config !! "since_id" = Some (JString "9xyz")
  | inl _ => False
  end.
Proof.
  pose proof (load_config_sources plain_int ∅ Restart.tuned) as H.
  assert (match loaded (load_config plain_int ∅ Restart.tuned) with
          | inl _ => false
          | inr _ => true
          end = true) as Hb by (vm_compute; reflexivity).
  destruct (loaded (load_config plain_int ∅ Restart.tuned)) as [e|config].
  - discriminate Hb.
  - exact (H config eq_refl).
Defined.

(** ** When the configuration file is read *)

(** X11. When the five required variables are all set, [load_config] never
    opens the configuration file: the result is the same whatever that file
    holds, be it undecodable, a JSON array or full of unknown keys. Only
    the state file is read. *)
Theorem config_file_not_read (py_int : string -> option Z) (environ : gmap string string)
    (read_json read_json' : string -> read_result) :
  consulted environ = false ->
  read_json "crosspost_state.json" = read_json' "crosspost_state.json" ->
  load_config py_int environ read_json = load_config py_int environ read_json'.
Proof.
  intros Hc Hs. unfold load_config.
  destruct (environment_settings py_int environ) as [e|cd0] eqn:He; [reflexivity|].
  destruct (environment_settings_inr py_int environ cd0 He) as (Hget & _).
  rewrite required_fields_settings, existsb_map_fst.
  rewrite (existsb_ext_elem _ (fun s => bool_decide (environ !! snd s = None))).
  2:{ intros s Hin. unfold dict_get. rewrite (Hget s Hin). apply is_None_environ_get. }
  fold (consulted environ). rewrite Hc.
  unfold validate_and_build. now rewrite Hs.
Qed.

(** All five variables set: a configuration file with an unknown key, which
    makes loading fail when it is read, changes nothing. *)
Lemma config_file_not_read_witness :
  load_config plain_int Startup.complete_environ Startup.commented_config
  = load_config plain_int Startup.complete_environ Startup.no_files.
Proof.
  apply (config_file_not_read plain_int Startup.complete_environ
           Startup.commented_config Startup.no_files).
  - vm_compute. reflexivity.
  - reflexivity.
Defined.

(** ** When the configuration file cannot be read *)

Lemma printed_validate_and_build (read_json : string -> read_result)
    (config_dict : gmap string json) (out : list string) :
  printed (validate_and_build read_json config_dict out) = out.
Proof.
  unfold validate_and_build. destruct (truthy _); [reflexivity|].
  now destruct (read_json "crosspost_state.json") as [msg|msg|e|[]].
Qed.

Lemma existsb_filter_nonempty {A} (f : A -> bool) (l : list A) :
  existsb f l = true -> List.filter f l <> [].
Proof.
  induction l as [|x l IH]; cbn; [discriminate|]. destruct (f x); [discriminate | exact IH].
Qed.

(** X12. [load_config] prints a line only when it looked for the
    configuration file and could not open or decode it, and then loading
    never succeeds: the file is only looked at when a required variable is
    unset, the fields of the unset variables stay absent, and [load_config]
    raises "Missing required configuration: " with exactly these fields. A
    load that succeeds has printed nothing. *)
Theorem config_file_error_is_fatal (py_int : string -> option Z)
    (environ : gmap string string) (read_json : string -> read_result) (line : string) :
  In line (printed (load_config py_int environ read_json)) ->
  (exists msg,
      line = "Error loading config file: " +:+ msg
      /\ (read_json (config_path environ) = FileNotFoundError msg
          \/ read_json (config_path environ) = JSONDecodeError msg))
  /\ printed (load_config py_int environ read_json) = [line]
  /\ missing environ read_json <> []
  /\ loaded (load_config py_int environ read_json)
     = inl (OtherException "ValueError"
              ("Missing required configuration: " +:+ join ", " (missing environ read_json))).
Proof.
  unfold load_config. fold (config_path environ).
  destruct (environment_settings py_int environ) as [e|cd0] eqn:He; [intros []|].
  destruct (environment_settings_inr py_int environ cd0 He) as (Hget & _).
  assert (consulted environ
          = existsb (fun field => is_None (dict_get cd0 field)) required_fields) as Hc.
  { rewrite required_fields_settings, existsb_map_fst. unfold consulted.
    apply existsb_ext_elem. intros s Hs. unfold dict_get. rewrite (Hget s Hs).
    symmetry. apply is_None_environ_get. }
  rewrite <- Hc. destruct (consulted environ) eqn:Hcons.
  2:{ rewrite printed_validate_and_build. intros []. }
  assert (forall msg out,
             (read_json (config_path environ) = FileNotFoundError msg
              \/ read_json (config_path environ) = JSONDecodeError msg) ->
             missing environ read_json <> []
             /\ loaded (validate_and_build read_json cd0 out)
                = inl (OtherException "ValueError"
                         ("Missing required configuration: "
                            +:+ join ", " (missing environ read_json)))) as Hfatal.
  { intros msg out Hrj.
    assert (file_config environ read_json = ∅) as Hfile.
    { unfold file_config. now destruct Hrj as [-> | ->]. }
    assert (forall s, s ∈ required_settings ->
              is_None (dict_get cd0 (fst s)) = absent environ read_json s) as Habs.
    { intros s Hs. unfold absent, dict_get. rewrite (Hget s Hs), Hfile, lookup_empty.
      cbn. now rewrite andb_true_r, is_None_environ_get. }
    assert (missing environ read_json <> []) as Hm.
    { unfold missing. intros Hnil. apply map_eq_nil in Hnil. revert Hnil.
      apply existsb_filter_nonempty.
      rewrite (existsb_ext_elem _ (fun s => is_None (dict_get cd0 (fst s))))
        by (intros s Hs; symmetry; now apply Habs).
      rewrite <- (existsb_map_fst (fun field => is_None (dict_get cd0 field))).
      rewrite <- required_fields_settings. now rewrite <- Hc. }
    split; [exact Hm|]. now apply validate_and_build_missing. }
  destruct (read_json (config_path environ)) as [msg|msg|e|[]] eqn:Hrj;
    cbn [printed]; rewrite ?printed_validate_and_build; try (intros []; fail).
  - intros [<-|[]]. destruct (Hfatal msg ["Error loading config file: " +:+ msg]) as [Hm Hl];
      [now left|]. eauto 10.
  - intros [<-|[]]. destruct (Hfatal msg ["Error loading config file: " +:+ msg]) as [Hm Hl];
      [now right|]. eauto 10.
Qed.

(** Two variables set and no file. *)
Lemma config_file_error_is_fatal_witness :
  loaded (load_config plain_int Startup.partial_environ Startup.no_files)
  = inl (OtherException "ValueError"
           "Missing required configuration: misskey_token, misskey_user_id, mastodon_token").
Proof.
  refine (proj2 (proj2 (proj2
            (config_file_error_is_fatal plain_int Startup.partial_environ Startup.no_files
               "Error loading config file: [Errno 2] No such file or directory: 'config.json'"
               _)))).
  vm_compute. now left.
Defined.

(** ** When loading fails, and where a run resumes *)

Section ProgramFacts.

Variable env : ports.
Variable py_int : string -> option Z.
Variable environ : gmap string string.
Variable read_json : string -> read_result.

Lemma print_all_run (lines : list string) (w : world) :
  print_all lines w = {| res := Ok tt; final := w; emitted := map EvPrint lines |}.
Proof.
  induction lines as [|line lines IH]; [reflexivity|].
  cbn [print_all foldr]. fold (print_all lines).
  unfold mbind, M_bind, bind. cbn [print res final emitted]. rewrite IH. reflexivity.
Qed.

Lemma print_all_bind {B} (lines : list string) (k : unit -> M B) (w : world) :
  (print_all lines ≫= k) w = after (map EvPrint lines) (k tt w).
Proof. unfold mbind, M_bind, bind. now rewrite print_all_run. Qed.

(** Loading with a required field absent, from the lemmas on validation. *)
Lemma load_config_missing :
  is_Some (py_int (default "20" (environ !! "FETCH_LIMIT"))) ->
  is_Some (py_int (default "2" (environ !! "CROSSPOST_DELAY"))) ->
  (consulted environ = true -> object_or_skipped (read_json (config_path environ))) ->
  missing environ read_json <> [] ->
  loaded (load_config py_int environ read_json)
  = inl (OtherException "ValueError"
           ("Missing required configuration: " +:+ join ", " (missing environ read_json))).
Proof.
  intros Hfl Hcd Hfile Hm.
  destruct (environment_settings_ok py_int environ Hfl Hcd) as (cd0 & He & Hget & _).
  destruct (load_config_merged py_int environ read_json cd0 He Hget Hfile) as [out ->].
  apply validate_and_build_missing; [|exact Hm].
  intros s Hs. destruct (merged_lookup environ read_json cd0 s Hget Hs) as [Hl Hn].
  unfold dict_get. now rewrite Hl.
Qed.

End ProgramFacts.

(** X13. When a required setting is absent, [main] does not end cleanly:
    it prints what [load_config] printed and the line "Error in main
    function: Missing required configuration: ..." and then its [finally]
    clause raises [UnboundLocalError], because [misskey_client] was never
    assigned. No client exists, so nothing is fetched, slept or written. *)
Theorem missing_setting_crashes_main (env : ports) (py_int : string -> option Z)
    (environ : gmap string string) (read_json : string -> read_result) (fuel : nat) :
  is_Some (py_int (default "20" (environ !! "FETCH_LIMIT"))) ->
  is_Some (py_int (default "2" (environ !! "CROSSPOST_DELAY"))) ->
  (consulted environ = true -> object_or_skipped (read_json (config_path environ))) ->
  missing environ read_json <> [] ->
  exists m,
    main_program env py_int environ read_json fuel = Some m
    /\ forall w,
        res (m w) = Raised unbound_client
        /\ final (m w) = w
        /\ emitted (m w)
           = map EvPrint
               (printed (load_config py_int environ read_json)
                  ++ ["Error in main function: Missing required configuration: "
                        +:+ join ", " (missing environ read_json)]).
Proof.
  intros Hfl Hcd Hfile Hm.
  pose proof (load_config_missing py_int environ read_json Hfl Hcd Hfile Hm) as Hl.
  unfold main_program. rewrite Hl. eexists. split; [reflexivity|].
  intros w. rewrite print_all_bind. cbn. rewrite map_app. auto.
Qed.

(** Two variables set and no file. *)
Lemma missing_setting_crashes_main_witness :
  exists m,
    main_program Scenario.steady plain_int Startup.partial_environ Startup.no_files 1 = Some m
    /\ forall w,
        res (m w) = Raised unbound_client
        /\ final (m w) = w
        /\ emitted (m w)
           = [EvPrint "Error loading config file: [Errno 2] No such file or directory: 'config.json'";
              EvPrint "Error in main function: Missing required configuration: misskey_token, misskey_user_id, mastodon_token"].
Proof.
  refine (missing_setting_crashes_main Scenario.steady plain_int Startup.partial_environ
            Startup.no_files 1 _ _ _ _).
  - vm_compute. eauto.
  - vm_compute. eauto.
  - intros _. exact I.
  - vm_compute. discriminate.
Defined.

Lemma main_loop_emitted (env : ports) (fuel : nat) (config : Config) (w : world) :
  emitted (main_loop env fuel config w)
  = emitted (stream_loop env fuel (misskey_user_id config) (handle_note env config)
               (set_gen_since_id (config_since_id w) w)).
Proof.
  unfold main_loop, stream_notes, for_in_generator, mbind, M_bind, bind.
  cbn [put_since_id res final emitted after app].
  destruct (res (stream_loop env fuel (misskey_user_id config) (handle_note env config)
                   (set_gen_since_id (config_since_id w) w))); reflexivity.
Qed.

Lemma typed_config_since_id (instance : gmap string json) (config : Config) :
  typed_config instance = Some config ->
  as_optional_str (dict_get instance "since_id") = Some (since_id config)
  /\ as_str (dict_get instance "misskey_user_id") = Some (misskey_user_id config).
Proof.
  unfold typed_config. intros H.
  repeat match type of H with
         | (?m ≫= _) = Some _ => destruct m eqn:?; cbn [mbind option_bind] in H; [|discriminate]
         end.
  injection H as <-. auto.
Qed.

(** X14. A run resumes where the last one stopped: when the state file is
    the document [save_state] wrote for the identifier [since_id'], the
    loaded configuration has that cursor, and the first thing [main] does
    after its start line is to test the flag and poll for the notes of
    [config.misskey_user_id] since [since_id'] (for the empty identifier,
    which is falsy, the poll carries no [sinceId]). *)
Theorem restart_resumes_from_state_file (env : ports) (py_int : string -> option Z)
    (environ : gmap string string) (read_json : string -> read_result) (fuel : nat)
    (instance : gmap string json) (config : Config) (since_id' last_run : string) :
  loaded (load_config py_int environ read_json) = inr instance ->
  typed_config instance = Some config ->
  read_json "crosspost_state.json" = Loaded (state_document since_id' last_run) ->
  since_id config = Some since_id'
  /\ exists m,
      main_program env py_int environ read_json (S fuel) = Some m
      /\ forall w, exists r rest,
          emitted (m w)
          = map EvPrint (printed (load_config py_int environ read_json))
            ++ EvPrint "Starting to listen for new notes..."
            :: EvCheckRunning true
            :: EvFetch (poll_request (misskey_user_id config) (Some since_id')) r
            :: rest.
Proof.
  intros Hl Ht Hs.
  assert (since_id config = Some since_id') as Hsince.
  { pose proof (load_config_since_id py_int environ read_json instance Hl) as Hi.
    destruct (typed_config_since_id instance config Ht) as [Ho _].
    unfold dict_get in Ho. rewrite Hi in Ho. unfold persisted_since_id in Ho.
    rewrite Hs in Ho. cbn [state_document dict_of_members foldl fst snd] in Ho.
    unfold dict_get in Ho. rewrite lookup_insert_ne in Ho by discriminate.
    rewrite lookup_insert_eq in Ho. cbn in Ho. congruence. }
  split; [exact Hsince|].
  unfold main_program. rewrite Hl, Ht. cbn [mbind option_bind].
  eexists. split; [reflexivity|]. intros w. rewrite print_all_bind. cbn [after emitted].
  destruct (main_run env (S fuel) config (set_running true w)) as (_ & _ & ->).
  rewrite main_loop_emitted.
  destruct (running_loop_fetches env fuel (misskey_user_id config) (handle_note env config)
              (set_gen_since_id
                 (config_since_id (set_config_since_id (since_id config) (set_running true w)))
                 (set_config_since_id (since_id config) (set_running true w))) eq_refl)
    as [rest ->].
  cbn [set_gen_since_id set_config_since_id gen_since_id config_since_id]. rewrite Hsince.
  eexists _, _. cbn [app]. reflexivity.
Qed.

(** All five variables set, the state file of an earlier run that stopped
    at "9xyz": the first poll asks for the notes since "9xyz". *)
Lemma restart_resumes_from_state_file_witness :
  exists m,
    main_program Scenario.steady plain_int Startup.complete_environ Restart.resumed 1 = Some m
    /\ forall w, exists r rest,
        emitted (m w)
        = EvPrint "Starting to listen for new notes..."
            :: EvCheckRunning true
            :: EvFetch {| userId := "u1"; limit := 10; sinceId := Some "9xyz" |} r
            :: rest.
Proof.
  refine (proj2 (restart_resumes_from_state_file Scenario.steady plain_int
                   Startup.complete_environ Restart.resumed 0
                   (match loaded (load_config plain_int Startup.complete_environ
                                    Restart.resumed) with
                    | inr instance => instance
                    | inl _ => ∅
                    end)
                   {| misskey_instance := "https://misskey.example"; misskey_token := "t1";
                      misskey_user_id := "u1";
                      mastodon_instance := "https://mastodon.example";
                      mastodon_token := "t2";
                      fetch_limit := 20; since_id := Some "9xyz"; crosspost_delay := 2 |}
                   "9xyz" "2024-05-01T12:00:00" _ _ _)).
  - vm_compute. reflexivity.
  - vm_compute. reflexivity.
  - reflexivity.
Defined.

(** ** The addresses and headers of the clients *)

Lemma append_assoc (a b c : string) : (a +:+ b) +:+ c = a +:+ (b +:+ c).
Proof.
  induction a as [|x a IH]; [reflexivity|].
  change (String x a +:+ b) with (String x (a +:+ b)).
  change (String x (a +:+ b) +:+ c) with (String x ((a +:+ b) +:+ c)).
  now rewrite IH.
Qed.

Lemma append_slash_nonempty (s : string) : s +:+ "/" <> "".
Proof. now destruct s. Qed.

Lemma rstrip_app_slash (s : string) : rstrip "/" (s +:+ "/") = rstrip "/" s.
Proof.
  induction s as [|c s IH]; [reflexivity|].
  change (String c s +:+ "/") with (String c (s +:+ "/")).
  cbn [rstrip]. now rewrite IH.
Qed.

(** What [rstrip] returns does not end with a slash. *)
Lemma rstrip_no_trailing_slash (s : string) :
  forall s', rstrip "/" s <> s' +:+ "/".
Proof.
  induction s as [|c s IH]; intros s'.
  - intros H. exact (append_slash_nonempty s' (eq_sym H)).
  - cbn [rstrip]. destruct (rstrip "/" s) as [|d kept] eqn:E.
    + destruct (char_in c "/") eqn:Hc.
      * intros H. exact (append_slash_nonempty s' (eq_sym H)).
      * destruct s' as [|c' s'].
        -- intros [= ->]. discriminate Hc.
        -- change (String c' s' +:+ "/") with (String c' (s' +:+ "/")).
           intros [= _ H]. exact (append_slash_nonempty s' (eq_sym H)).
    + destruct s' as [|c' s'].
      * discriminate.
      * change (String c' s' +:+ "/") with (String c' (s' +:+ "/")).
        intros [= _ H]. exact (IH s' H).
Qed.

(** What [lstrip] returns does not start with a slash. *)
Lemma lstrip_no_leading_slash (s : string) : startswith "/" (lstrip "/" s) = false.
Proof.
  induction s as [|c s IH]; [reflexivity|].
  cbn [lstrip]. destruct (char_in c "/") eqn:Hc; [exact IH|].
  unfold startswith. cbn [String.prefix].
  destruct (ascii_dec "/" c) as [<-|Hne]; [discriminate Hc | reflexivity].
Qed.

(** X15. [download_attachment] fetches an attachment whose URL starts with
    "http" at that URL, unchanged. Any other URL is taken as a path on the
    Misskey instance and joined to it by exactly one slash: the address
    is the same however many slashes end the configured instance (one more
    or none) and start the path, its first part does not end with a slash
    and its last part does not start with one. *)
Theorem attachment_address_normalised (instance token file_url : string) :
  let self := MisskeyClient.init instance token in
  (startswith "http" file_url = true ->
   MisskeyClient.attachment_url self file_url = file_url)
  /\ (startswith "http" file_url = false ->
      MisskeyClient.attachment_url self file_url
      = rstrip "/" instance +:+ "/" +:+ lstrip "/" file_url
      /\ (forall s, rstrip "/" instance <> s +:+ "/")
      /\ startswith "/" (lstrip "/" file_url) = false
      /\ MisskeyClient.attachment_url (MisskeyClient.init (instance +:+ "/") token)
           ("/" +:+ file_url)
         = MisskeyClient.attachment_url self file_url).
Proof.
  cbn zeta. unfold MisskeyClient.attachment_url, MisskeyClient.init. cbn [MisskeyClient.instance].
  split.
  - now intros ->.
  - intros H. rewrite H. cbn [negb].
    split; [reflexivity|]. split; [apply rstrip_no_trailing_slash|].
    split; [apply lstrip_no_leading_slash|].
    now rewrite rstrip_app_slash.
Qed.

(** X16. The API addresses do not depend on a trailing slash of the
    configured instances: the Misskey endpoint is at the instance without
    its trailing slashes, then "/api/", then the endpoint; the Mastodon
    endpoint is at the instance without its trailing slashes, then
    "/api/v1/", then the endpoint. *)
Theorem api_addresses_ignore_trailing_slash (instance token endpoint : string) :
  MisskeyClient.request_url (MisskeyClient.init instance token) endpoint
  = rstrip "/" instance +:+ "/api/" +:+ endpoint
  /\ MastodonClient.request_url (MastodonClient.init instance token) endpoint
     = rstrip "/" instance +:+ "/api/v1/" +:+ endpoint
  /\ MisskeyClient.request_url (MisskeyClient.init (instance +:+ "/") token) endpoint
     = MisskeyClient.request_url (MisskeyClient.init instance token) endpoint
  /\ MastodonClient.request_url (MastodonClient.init (instance +:+ "/") token) endpoint
     = MastodonClient.request_url (MastodonClient.init instance token) endpoint
  /\ (forall s, rstrip "/" instance <> s +:+ "/").
Proof.
  unfold MisskeyClient.request_url, MastodonClient.request_url,
    MisskeyClient.init, MastodonClient.init.
  cbn [MisskeyClient.base_url MastodonClient.base_url].
  rewrite !rstrip_app_slash, !append_assoc.
  repeat split; try reflexivity. apply rstrip_no_trailing_slash.
Qed.

(** X17. Every request to Mastodon carries the header "Authorization:
    Bearer <token>" of the client: a caller that passes headers of its own
    cannot replace it, and keeps all its other headers. *)
Theorem authorization_always_sent (instance token : string)
    (kwargs_headers : option (gmap string string)) :
  let self := MastodonClient.init instance token in
  MastodonClient.request_headers self kwargs_headers !! "Authorization"
  = Some ("Bearer " +:+ token)
  /\ forall name, name <> "Authorization" ->
       MastodonClient.request_headers self kwargs_headers !! name
       = kwargs_headers ≫= (fun given => given !! name).
Proof.
  cbn zeta. unfold MastodonClient.request_headers, MastodonClient.init.
  cbn [MastodonClient.headers]. destruct kwargs_headers as [given|]; cbn [mbind option_bind].
  - split.
    + apply lookup_union_Some_l, lookup_singleton_eq.
    + intros name Hn. rewrite lookup_union_r; [reflexivity|].
      now apply lookup_singleton_ne.
  - split; [apply lookup_singleton_eq|]. intros name Hn. now apply lookup_singleton_ne.
Qed.
